(** * opmd2VTK: the pyvtk back end of the openPMD to VTK converter

    A shallow embedding of [opmd2VTK/pyvtk.py] (class [Opmd2VTK]) and the
    properties of its two public methods, [write_fields_vtk] and
    [write_species_vtk], and of its two mesh builders.

    Python objects are modelled as follows.
    - An [int] is a [Z]; a [str] is a [string]; a [list] is a [list];
      a [dict] is a [gmap]; [None] is [None] of an [option].
    - An instance attribute that the class assigns in a method is an
      [option]: [None] says that the attribute does not exist yet, so that
      reading it raises [AttributeError].
    - A method is a function from the world (the instance, the files written
      so far, the calls made into the parent class so far) to an outcome:
      a normal return or a raised exception, both with the world they leave.
    - numpy arrays, floats and the particle selection are never inspected by
      the code: they are carriers of the class [Foreign].
    - The parent class [opmd2VTKGeneric] and the writer of the [pyvtk]
      library are interfaces ([opmd2VTKGeneric], [PyVTK]). *)

From Equations Require Import Equations.
From Stdlib Require Import Ascii String ZArith Lia.
From stdpp Require Import gmap strings list.

Local Open Scope string_scope.

(** ** Python strings and integers *)

Definition digit_char (d : N) : ascii := ascii_of_N (48 + d).

(** The decimal digits of a natural number, most significant first. *)
Equations? digits_of (n : N) : string by wf (N.to_nat n) lt :=
  digits_of n with decide (n < 10)%N => {
    | left _ := String (digit_char n) EmptyString
    | right _ := digits_of (n / 10) +:+ String (digit_char (n mod 10)) EmptyString }.
Proof.
  assert (n / 10 < n)%N by (apply N.div_lt; lia). lia.
Qed.

(** [str(i)] for an [int]. *)
Definition str (i : Z) : string :=
  if (i <? 0)%Z then String "-" (digits_of (Z.to_N (- i)))
  else digits_of (Z.to_N i).

Definition digit_val (c : ascii) : option N :=
  let k := N_of_ascii c in
  if ((48 <=? k) && (k <=? 57))%N then Some (k - 48)%N else None.

Fixpoint parse_digits (acc : N) (s : string) : option N :=
  match s with
  | EmptyString => Some acc
  | String c s' =>
      match digit_val c with
      | Some d => parse_digits (10 * acc + d) s'
      | None => None
      end
  end.

(** [int(s)] for a [str] made of an optional sign and decimal digits;
    [None] is Python's [ValueError]. Surrounding blanks and underscores,
    which [int] also accepts, are left out. *)
Definition int (s : string) : option Z :=
  match s with
  | EmptyString => None
  | String c s' =>
      if Ascii.eqb c "-" then
        match s' with
        | EmptyString => None
        | _ => (fun n => - Z.of_N n)%Z <$> parse_digits 0 s'
        end
      else if Ascii.eqb c "+" then
        match s' with
        | EmptyString => None
        | _ => Z.of_N <$> parse_digits 0 s'
        end
      else Z.of_N <$> parse_digits 0 s
  end.

(** [while len(istr)<7 : istr='0'+istr] *)
Equations? zero_pad (istr : string) : string by wf (7 - String.length istr) lt :=
  zero_pad istr with decide (String.length istr < 7) => {
    | left _ := zero_pad (String "0" istr)
    | right _ := istr }.
Proof. simpl. lia. Qed.

(** [template.format(a, b, ...)] for templates whose replacement fields are the
    automatic ones, [{}] and [{:}]; [{{] and [}}] are the escaped braces.
    [None] is the exception Python raises on any other use of a brace or
    when the arguments run out. Arguments are [str], inserted as they are. *)
Fixpoint str_format (template : string) (args : list string) {struct template}
  : option string :=
  let field rest :=
    match args with
    | a :: args' => (fun r => a +:+ r) <$> rest args'
    | [] => None
    end in
  match template with
  | EmptyString => Some EmptyString
  | String c rest =>
      if Ascii.eqb c "{" then
        match rest with
        | EmptyString => None
        | String c1 rest1 =>
            if Ascii.eqb c1 "{" then String "{" <$> str_format rest1 args
            else if Ascii.eqb c1 "}" then field (str_format rest1)
            else if Ascii.eqb c1 ":" then
              match rest1 with
              | EmptyString => None
              | String c2 rest2 =>
                  if Ascii.eqb c2 "}" then field (str_format rest2) else None
              end
            else None
        end
      else if Ascii.eqb c "}" then
        match rest with
        | EmptyString => None
        | String c1 rest1 =>
            if Ascii.eqb c1 "}" then String "}" <$> str_format rest1 args
            else None
        end
      else String c <$> str_format rest args
  end.

(** ** Exceptions and outcomes *)

Inductive exn :=
| AttributeError (attr : string)
| KeyError (key : string)
| NameError (name : string)
| UnboundLocalError (name : string)
| IndexError
| FormatError
| LibraryError (what : string).

(** [isinstance(e, NameError)]: [UnboundLocalError] is a subclass of
    [NameError]. *)
Definition is_NameError (e : exn) : bool :=
  match e with
  | NameError _ | UnboundLocalError _ => true
  | _ => false
  end.

(** What a call into the parent class or into a library gives back. *)
Inductive result (A : Type) :=
| Ok (a : A)
| Err (e : exn).
Arguments Ok {A} a.
Arguments Err {A} e.

(** ** Objects of the libraries *)

(** Values the converter passes around without looking into them. *)
Class Foreign := {
  ndarray : Type;      (* numpy arrays *)
  np_dtype : Type;     (* numpy dtypes *)
  pyfloat : Type;      (* Python floats *)
  selection : Type;    (* the particle selection dict of openPMD-viewer *)
  pyobject : Type;     (* any other object: tuples of numbers, modules *)
  astype : ndarray -> np_dtype -> ndarray;   (* [a.astype(t)] *)
  global_object : string -> pyobject         (* the object a bound global names *)
}.

Section Model.
Context `{F : Foreign}.

(** The data sets of pyvtk. *)
Inductive DataSet :=
| StructuredPoints (dimensions origin spacing : pyobject)
| StructuredGrid (dimensions : Z * pyobject * pyobject) (points : pyobject)
| PolyData (points : pyobject).

(** The named arrays of pyvtk. *)
Inductive DataSetAttr :=
| Scalars (scalars : ndarray) (name : string)
| Vectors (vectors : ndarray) (name : string).

Definition attr_name (a : DataSetAttr) : string :=
  match a with Scalars _ n | Vectors _ n => n end.

(** One write: [vtk.VtkData(structure, vtk.PointData(a, b, ...))] and the
    arguments of its [tofile]. [file_name] is the name as the converter
    hands it to pyvtk; the file that pyvtk creates from it is
    [vtk_filename file_name], see below. *)
Record VtkFile := {
  file_name : string;
  structure : option DataSet;
  point_data : list DataSetAttr;
  file_format : string
}.

(** ** The converter instance *)

(** The part of [OpenPMDTimeSeries] the converter reads. *)
Record TimeSeries := {
  avail_fields : list string;
  avail_species : list string;
  fields_metadata : gmap string (gmap string string)
}.

(** An instance of [Opmd2VTK]. [ts], [path] and [dtype] are read by the class
    and never assigned by it: the constructor of the parent class sets them.
    The other attributes are assigned by methods of the class or of its
    parent, and do not exist before. *)
Record Opmd2VTK := {
  ts : TimeSeries;
  path : string;
  dtype : np_dtype;
  dimensions : option pyobject;
  iteration : option Z;
  zmin_fixed : option (option pyfloat);
  CommonMesh : option bool;
  Nth : option Z;
  grid : option (option DataSet);
  select : option (option selection);
  scalars : option (list string)
}.

Definition set_iteration (v : Z) (s : Opmd2VTK) : Opmd2VTK :=
  {| ts := ts s; path := path s; dtype := dtype s; dimensions := dimensions s;
     iteration := Some v; zmin_fixed := zmin_fixed s;
     CommonMesh := CommonMesh s; Nth := Nth s; grid := grid s;
     select := select s; scalars := scalars s |}.

Definition set_zmin_fixed (v : option pyfloat) (s : Opmd2VTK) : Opmd2VTK :=
  {| ts := ts s; path := path s; dtype := dtype s; dimensions := dimensions s;
     iteration := iteration s; zmin_fixed := Some v;
     CommonMesh := CommonMesh s; Nth := Nth s; grid := grid s;
     select := select s; scalars := scalars s |}.

Definition set_CommonMesh (v : bool) (s : Opmd2VTK) : Opmd2VTK :=
  {| ts := ts s; path := path s; dtype := dtype s; dimensions := dimensions s;
     iteration := iteration s; zmin_fixed := zmin_fixed s;
     CommonMesh := Some v; Nth := Nth s; grid := grid s;
     select := select s; scalars := scalars s |}.

Definition set_Nth (v : Z) (s : Opmd2VTK) : Opmd2VTK :=
  {| ts := ts s; path := path s; dtype := dtype s; dimensions := dimensions s;
     iteration := iteration s; zmin_fixed := zmin_fixed s;
     CommonMesh := CommonMesh s; Nth := Some v; grid := grid s;
     select := select s; scalars := scalars s |}.

Definition set_grid (v : option DataSet) (s : Opmd2VTK) : Opmd2VTK :=
  {| ts := ts s; path := path s; dtype := dtype s; dimensions := dimensions s;
     iteration := iteration s; zmin_fixed := zmin_fixed s;
     CommonMesh := CommonMesh s; Nth := Nth s; grid := Some v;
     select := select s; scalars := scalars s |}.

Definition set_select (v : option selection) (s : Opmd2VTK) : Opmd2VTK :=
  {| ts := ts s; path := path s; dtype := dtype s; dimensions := dimensions s;
     iteration := iteration s; zmin_fixed := zmin_fixed s;
     CommonMesh := CommonMesh s; Nth := Nth s; grid := grid s;
     select := Some v; scalars := scalars s |}.

Definition set_scalars (v : list string) (s : Opmd2VTK) : Opmd2VTK :=
  {| ts := ts s; path := path s; dtype := dtype s; dimensions := dimensions s;
     iteration := iteration s; zmin_fixed := zmin_fixed s;
     CommonMesh := CommonMesh s; Nth := Nth s; grid := grid s;
     select := select s; scalars := Some v |}.

(** ** The world and the monad of methods *)

(** A call into the parent class [opmd2VTKGeneric]. *)
Inductive Call :=
| Call_convert_field_vec_full (fld : string)
| Call_convert_field_scl (fld : string)
| Call_convert_field_vec_comp (fld comp : string)
| Call_convert_species (specie : string).

(** [disk] lists the writes to the disk that succeeded, oldest first, and
    [calls] the calls made into the parent class, oldest first. A write
    creates a file or replaces the one of that name: [file_system] gives
    the files that the writes leave. *)
Record World := {
  self : Opmd2VTK;
  disk : list VtkFile;
  calls : list Call
}.

Inductive outcome (A : Type) :=
| Return (w : World) (a : A)
| Raise (w : World) (e : exn).
Arguments Return {A} w a.
Arguments Raise {A} w e.

Definition world_of {A} (o : outcome A) : World :=
  match o with Return w _ | Raise w _ => w end.

Definition Py (A : Type) : Type := World -> outcome A.

Definition ret {A} (a : A) : Py A := fun w => Return w a.

Definition raise {A} (e : exn) : Py A := fun w => Raise w e.

Definition bind {A B} (m : Py A) (k : A -> Py B) : Py B :=
  fun w =>
    match m w with
    | Return w' a => k a w'
    | Raise w' e => Raise w' e
    end.

End Model.

Arguments Return {F A} w a.
Arguments Raise {F A} w e.

Notation "x <- m ;; k" := (bind m (fun x => k))
  (at level 100, m at next level, right associativity, only parsing).
Notation "m ;;; k" := (bind m (fun _ => k))
  (at level 100, right associativity, only parsing).

(** ** The parent class and the writer *)

(** The methods the class inherits from [opmd2VTKGeneric] (file
    [generic.py]): each receives the instance, may change it, and returns
    or raises. The three field converters return the data array and the
    name of the field, [_convert_species] the positions and one array per
    requested scalar. *)
Class opmd2VTKGeneric `{F : Foreign} := {
  _convert_field_vec_full :
    Opmd2VTK -> string -> Opmd2VTK * result (ndarray * string);
  _convert_field_scl :
    Opmd2VTK -> string -> Opmd2VTK * result (ndarray * string);
  _convert_field_vec_comp :
    Opmd2VTK -> string -> string -> Opmd2VTK * result (ndarray * string);
  _convert_species :
    Opmd2VTK -> string -> Opmd2VTK * result (pyobject * list ndarray)
}.

(** The two calls into pyvtk that can fail. The constructor
    [vtk.VtkData(structure, vtk.PointData(...))] raises on a structure that
    is no data set or on arrays of the wrong size, and [tofile(name, format)]
    on an I/O error: [VtkData_fault] and [tofile_fault] say when and with
    which exception. *)
Class PyVTK `{F : Foreign} := {
  VtkData_fault : option DataSet -> list DataSetAttr -> option exn;
  tofile_fault : VtkFile -> option exn
}.

Section Methods.
Context `{F : Foreign} {G : opmd2VTKGeneric} {V : PyVTK}.

(** *** Attribute access *)

Definition get_self : Py Opmd2VTK := fun w => Return w (self w).

Definition modify_self (f : Opmd2VTK -> Opmd2VTK) : Py unit :=
  fun w => Return {| self := f (self w); disk := disk w; calls := calls w |} tt.

(** [self.name], for an attribute that may not exist. *)
Definition getattr {A} (name : string) (proj : Opmd2VTK -> option A) : Py A :=
  fun w =>
    match proj (self w) with
    | Some v => Return w v
    | None => Raise w (AttributeError name)
    end.

Definition self_path : Py string := s <- get_self ;; ret (path s).
Definition self_dtype : Py np_dtype := s <- get_self ;; ret (dtype s).
Definition self_dimensions : Py pyobject := getattr "dimensions" dimensions.
Definition self_iteration : Py Z := getattr "iteration" iteration.
Definition self_CommonMesh : Py bool := getattr "CommonMesh" CommonMesh.
Definition self_Nth : Py Z := getattr "Nth" Nth.
Definition self_grid : Py (option DataSet) := getattr "grid" grid.
Definition self_scalars : Py (list string) := getattr "scalars" scalars.

(** *** Names *)

(** The names bound at the top level of the module [pyvtk.py]: its three
    imported modules, the imported parent class and the class itself. *)
Definition module_globals : list string :=
  ["vtk"; "np"; "os"; "opmd2VTKGeneric"; "Opmd2VTK"].

(** Reading a global name: a name that is not bound at the top level of the
    module raises [NameError] (the names the class reads this way are no
    builtins). *)
Definition load_global (name : string) : Py pyobject :=
  if decide (name ∈ module_globals) then ret (global_object name)
  else raise (NameError name).

(** Reading a local variable of the running function: [None] says the
    variable has not been assigned yet. *)
Definition load_fast {A} (name : string) (v : option A) : Py A :=
  match v with
  | Some a => ret a
  | None => raise (UnboundLocalError name)
  end.

(** *** Calls out of the class *)

Definition call_generic {A} (c : Call)
    (method : Opmd2VTK -> Opmd2VTK * result A) : Py A :=
  fun w =>
    let (s', r) := method (self w) in
    let w' := {| self := s'; disk := disk w; calls := (calls w ++ [c])%list |} in
    match r with
    | Ok a => Return w' a
    | Err e => Raise w' e
    end.

(** [vtk.VtkData(structure, vtk.PointData(a, b, ...))] *)
Definition VtkData (structure : option DataSet) (point_data : list DataSetAttr)
  : Py (option DataSet * list DataSetAttr) :=
  match VtkData_fault structure point_data with
  | Some e => raise e
  | None => ret (structure, point_data)
  end.

(** [data.tofile(file_name, format=format)]: one more write, under the name
    given. *)
Definition tofile (data : option DataSet * list DataSetAttr)
    (file_name format : string) : Py unit :=
  fun w =>
    let f := {| file_name := file_name; structure := fst data;
                point_data := snd data; file_format := format |} in
    match tofile_fault f with
    | Some e => Raise w e
    | None =>
        Return {| self := self w; disk := (disk w ++ [f])%list;
                  calls := calls w |} tt
    end.

Definition format_ (template : string) (args : list string) : Py string :=
  match str_format template args with
  | Some s => ret s
  | None => raise FormatError
  end.

(** [self.ts.fields_metadata[fld]['type']] *)
Definition field_type_of (fld : string) : Py string :=
  s <- get_self ;;
  match fields_metadata (ts s) !! fld with
  | None => raise (KeyError fld)
  | Some info =>
      match info !! "type" with
      | None => raise (KeyError "type")
      | Some t => ret t
      end
  end.

(** [istr = str(self.iteration)] and the padding loop. *)
Definition make_istr : Py string :=
  i <- self_iteration ;;
  ret (zero_pad (str i)).

(** *** [write_fields_vtk] *)

(** The body of the loop over the fields, [CommonMesh] true. *)
Definition common_mesh_body (fld : string) (vtk_container : list DataSetAttr)
  : Py (list DataSetAttr) :=
  field_type <- field_type_of fld ;;
  if String.eqb field_type "vector" then
    r <- call_generic (Call_convert_field_vec_full fld)
           (fun s => _convert_field_vec_full s fld) ;;
    let (fdata, fname) := r : ndarray * string in
    let vecs := Vectors fdata fname in
    ret (vtk_container ++ [vecs])%list
  else if String.eqb field_type "scalar" then
    r <- call_generic (Call_convert_field_scl fld)
           (fun s => _convert_field_scl s fld) ;;
    let (fdata, fname) := r : ndarray * string in
    let scl := Scalars fdata fname in
    ret (vtk_container ++ [scl])%list
  else ret vtk_container.

Fixpoint common_mesh_loop (flds : list string) (vtk_container : list DataSetAttr)
  : Py (list DataSetAttr) :=
  match flds with
  | [] => ret vtk_container
  | fld :: flds' =>
      vtk_container' <- common_mesh_body fld vtk_container ;;
      common_mesh_loop flds' vtk_container'
  end.

(** The loop [for comp in comps] of the vector branch, [CommonMesh] false.
    The local variable [comp] outlives the loop: the loop returns its last
    binding. *)
Fixpoint comps_loop (istr format fld : string) (comps : list string)
    (comp : option string) : Py (option string) :=
  match comps with
  | [] => ret comp
  | c :: comps' =>
      let comp := Some c in
      let fld_full := fld +:+ c in
      p <- self_path ;;
      n <- format_ "vtk_fields_{}_{}" [fld_full; istr] ;;
      let file_name := p +:+ n in
      r <- call_generic (Call_convert_field_vec_comp fld c)
             (fun s => _convert_field_vec_comp s fld c) ;;
      let (fdata, fname) := r : ndarray * string in
      let scl := Scalars fdata fname in
      g <- self_grid ;;
      data <- VtkData g [scl] ;;
      tofile data file_name format ;;;
      comps_loop istr format fld comps' comp
  end.

(** The body of the loop over the fields, [CommonMesh] false. [comp] is the
    local variable of that name, unbound until a vector field is met. *)
Definition per_component_body (istr format fld : string) (comp : option string)
  : Py (option string) :=
  field_type <- field_type_of fld ;;
  if String.eqb field_type "vector" then
    let comps := ["x"; "y"; "z"] in
    comps_loop istr format fld comps comp
  else if String.eqb field_type "scalar" then
    p <- self_path ;;
    n <- format_ "vtk_fields_{}_{}" [fld; istr] ;;
    let file_name := p +:+ n in
    c <- load_fast "comp" comp ;;
    r <- call_generic (Call_convert_field_vec_comp fld c)
           (fun s => _convert_field_vec_comp s fld c) ;;
    let (fdata, fname) := r : ndarray * string in
    let scl := Scalars fdata fname in
    g <- self_grid ;;
    data <- VtkData g [scl] ;;
    tofile data file_name format ;;;
    ret comp
  else ret comp.

Fixpoint per_component_loop (istr format : string) (flds : list string)
    (comp : option string) : Py (option string) :=
  match flds with
  | [] => ret comp
  | fld :: flds' =>
      comp' <- per_component_body istr format fld comp ;;
      per_component_loop istr format flds' comp'
  end.

Definition write_fields_vtk (flds : option (list string)) (iteration : Z)
    (format : string) (zmin_fixed : option pyfloat) (Nth : Z)
    (CommonMesh : bool) : Py unit :=
  flds <- match flds with
          | None => s <- get_self ;; ret (avail_fields (ts s))
          | Some l => ret l
          end ;;
  modify_self (set_iteration iteration) ;;;
  modify_self (set_zmin_fixed zmin_fixed) ;;;
  modify_self (set_CommonMesh CommonMesh) ;;;
  modify_self (set_Nth Nth) ;;;
  modify_self (set_grid None) ;;;
  istr <- make_istr ;;
  common <- self_CommonMesh ;;
  if common : bool then
    vtk_container <- common_mesh_loop flds [] ;;
    g <- self_grid ;;
    data <- VtkData g vtk_container ;;
    p <- self_path ;;
    tofile data (p +:+ "vtk_fields_" +:+ istr) format
  else
    per_component_loop istr format flds None ;;;
    ret tt.

(** *** [write_species_vtk] *)

(** [for i, scalar in enumerate(scalars_to_add)] *)
Fixpoint scalars_loop (i : nat) (scalars_to_add : list ndarray)
    (scalars_vtk : list DataSetAttr) : Py (list DataSetAttr) :=
  match scalars_to_add with
  | [] => ret scalars_vtk
  | scalar :: rest =>
      t <- self_dtype ;;
      names <- self_scalars ;;
      name <- match names !! i with
              | Some n => ret n
              | None => raise IndexError
              end ;;
      scalars_loop (S i) rest (scalars_vtk ++ [Scalars (astype scalar t) name])%list
  end.

(** The body of the loop over the species. *)
Definition species_body (name_base istr format specie : string) : Py unit :=
  r <- call_generic (Call_convert_species specie)
         (fun s => _convert_species s specie) ;;
  let (points, scalars_to_add) := r : pyobject * list ndarray in
  let pts_vtk := PolyData points in
  scalars_vtk <- scalars_loop 0 scalars_to_add [] ;;
  data <- VtkData (Some pts_vtk) scalars_vtk ;;
  n <- format_ name_base [specie; istr] ;;
  tofile data n format.

Fixpoint species_loop (name_base istr format : string) (species : list string)
  : Py unit :=
  match species with
  | [] => ret tt
  | specie :: species' =>
      species_body name_base istr format specie ;;;
      species_loop name_base istr format species'
  end.

Definition write_species_vtk (species : option (list string)) (iteration : Z)
    (format : string) (scalars : list string) (select : option selection)
    (zmin_fixed : option pyfloat) : Py unit :=
  species <- match species with
             | None => s <- get_self ;; ret (avail_species (ts s))
             | Some l => ret l
             end ;;
  modify_self (set_iteration iteration) ;;;
  modify_self (set_zmin_fixed zmin_fixed) ;;;
  modify_self (set_select select) ;;;
  modify_self (set_scalars scalars) ;;;
  istr <- make_istr ;;
  p <- self_path ;;
  let name_base := p +:+ "vtk_specie_{:}_{:}" in
  species_loop name_base istr format species.

(** The default of the argument [scalars]. *)
Definition default_scalars : list string := ["ux"; "uy"; "uz"; "w"].

(** *** The mesh builders *)

Definition _get_mesh_3d (origin resolutions : pyobject) : Py unit :=
  d <- self_dimensions ;;
  modify_self (set_grid (Some (StructuredPoints d origin resolutions))).

(** The tuple [(self.Nth+1, Nr, Nz)] is evaluated left to right; [Nr] and
    [Nz] are neither parameters nor assigned in the function, so they are
    read as globals. The parameter [dimensions] is not used. *)
Definition _get_mesh_circ (dimensions points : pyobject) : Py unit :=
  n <- self_Nth ;;
  nr <- load_global "Nr" ;;
  nz <- load_global "Nz" ;;
  modify_self (set_grid (Some (StructuredGrid ((n + 1)%Z, nr, nz) points))).

End Methods.

(** ** Vocabulary of the properties *)

Section Vocabulary.
Context `{F : Foreign} {G : opmd2VTKGeneric} {V : PyVTK}.

(** The attributes a converter of the parent class leaves as they are:
    everything but the mesh ([grid], [dimensions]). *)
Definition same_params (s s' : Opmd2VTK) : Prop :=
  ts s' = ts s /\ path s' = path s /\ dtype s' = dtype s /\
  iteration s' = iteration s /\ zmin_fixed s' = zmin_fixed s /\
  CommonMesh s' = CommonMesh s /\ Nth s' = Nth s /\
  select s' = select s /\ scalars s' = scalars s.

(** Modelled from the spec: the converters of [generic.py], which is not
    part of the sources at hand, extract arrays and build the mesh; they do
    not touch the reader, the output directory or the parameters that the
    public methods register. *)
Definition keeps_params : Prop :=
  (forall s fld, same_params s (fst (_convert_field_vec_full s fld))) /\
  (forall s fld, same_params s (fst (_convert_field_scl s fld))) /\
  (forall s fld comp, same_params s (fst (_convert_field_vec_comp s fld comp))) /\
  (forall s specie, same_params s (fst (_convert_species s specie))).

(** Modelled from the spec: the mesh of [generic.py]'s converters is
    computed lazily and cached, that is, a converter that finds a mesh in
    [grid] leaves it there. *)
Definition caches_mesh : Prop :=
  forall s fld g, grid s = Some (Some g) ->
    grid (fst (_convert_field_vec_full s fld)) = Some (Some g) /\
    grid (fst (_convert_field_scl s fld)) = Some (Some g) /\
    forall comp, grid (fst (_convert_field_vec_comp s fld comp)) = Some (Some g).

(** Modelled from the spec: [_convert_species] of [generic.py] retrieves the
    requested per-particle quantities, one array for each entry of
    [self.scalars]. *)
Definition one_array_per_scalar : Prop :=
  forall s specie points arrays names,
    scalars s = Some names ->
    snd (_convert_species s specie) = Ok (points, arrays) ->
    length arrays = length names.

(** The declared type of a field, when it has one. *)
Definition declared_type (t : TimeSeries) (fld : string) : option string :=
  info ← fields_metadata t !! fld; info !! "type".

(** The files of one field, [CommonMesh] false. *)
Definition field_files (t : TimeSeries) (dir istr fld : string) : list string :=
  match declared_type t fld with
  | Some ty =>
      if String.eqb ty "vector" then
        [dir +:+ "vtk_fields_" +:+ (fld +:+ "x") +:+ "_" +:+ istr;
         dir +:+ "vtk_fields_" +:+ (fld +:+ "y") +:+ "_" +:+ istr;
         dir +:+ "vtk_fields_" +:+ (fld +:+ "z") +:+ "_" +:+ istr]
      else if String.eqb ty "scalar" then
        [dir +:+ "vtk_fields_" +:+ fld +:+ "_" +:+ istr]
      else []
  | None => []
  end.

(** The extractions of one field, [CommonMesh] false. *)
Definition field_calls (t : TimeSeries) (fld : string) : list Call :=
  match declared_type t fld with
  | Some ty =>
      if String.eqb ty "vector" then
        [Call_convert_field_vec_comp fld "x";
         Call_convert_field_vec_comp fld "y";
         Call_convert_field_vec_comp fld "z"]
      else if String.eqb ty "scalar" then
        [Call_convert_field_vec_comp fld "z"]
      else []
  | None => []
  end.

(** The instance once [write_fields_vtk] has registered its parameters and
    reset the mesh. *)
Definition registered_fields (iteration : Z) (zmin_fixed : option pyfloat)
    (CommonMesh : bool) (Nth : Z) (w : World) : World :=
  {| self := set_grid None (set_Nth Nth (set_CommonMesh CommonMesh
               (set_zmin_fixed zmin_fixed (set_iteration iteration (self w)))));
     disk := disk w; calls := calls w |}.

(** The instance once [write_species_vtk] has registered its parameters. *)
Definition registered_species (iteration : Z) (zmin_fixed : option pyfloat)
    (select : option selection) (scalars : list string) (w : World) : World :=
  {| self := set_scalars scalars (set_select select
               (set_zmin_fixed zmin_fixed (set_iteration iteration (self w))));
     disk := disk w; calls := calls w |}.

(** The field list a call works on. *)
Definition resolve_fields (flds : option (list string)) (w : World) : list string :=
  match flds with
  | None => avail_fields (ts (self w))
  | Some l => l
  end.

Definition resolve_species (species : option (list string)) (w : World)
  : list string :=
  match species with
  | None => avail_species (ts (self w))
  | Some l => l
  end.

(** Two worlds that differ at most in the attributes [write_fields_vtk]
    assigns. *)
Definition differ_in_fields_params (w w' : World) : Prop :=
  ts (self w') = ts (self w) /\ path (self w') = path (self w) /\
  dtype (self w') = dtype (self w) /\
  dimensions (self w') = dimensions (self w) /\
  select (self w') = select (self w) /\ scalars (self w') = scalars (self w) /\
  disk w' = disk w /\ calls w' = calls w.

(** Two worlds that differ at most in the attributes [write_species_vtk]
    assigns. *)
Definition differ_in_species_params (w w' : World) : Prop :=
  ts (self w') = ts (self w) /\ path (self w') = path (self w) /\
  dtype (self w') = dtype (self w) /\
  dimensions (self w') = dimensions (self w) /\
  CommonMesh (self w') = CommonMesh (self w) /\ Nth (self w') = Nth (self w) /\
  grid (self w') = grid (self w) /\
  disk w' = disk w /\ calls w' = calls w.

(** A string without braces. *)
Fixpoint brace_free (s : string) : bool :=
  match s with
  | EmptyString => true
  | String c s' =>
      negb (Ascii.eqb c "{") && negb (Ascii.eqb c "}") && brace_free s'
  end.

(** The meshes of a list of files. *)
Definition meshes (files : list VtkFile) : list DataSet :=
  omap structure files.

(** The name of the file of one component of a vector field. *)
Definition comp_file (dir istr fld c : string) : string :=
  dir +:+ "vtk_fields_" +:+ (fld +:+ c) +:+ "_" +:+ istr.

Definition last_comp (comps : list string) (comp : option string)
  : option string :=
  match last comps with
  | Some c => Some c
  | None => comp
  end.

(** The extraction and the write that the vector branch and the scalar
    branch of the loop share, [CommonMesh] false. *)
Definition extract_and_write (fld comp file_name format : string) : Py unit :=
  r <- call_generic (Call_convert_field_vec_comp fld comp)
         (fun s => _convert_field_vec_comp s fld comp) ;;
  let (fdata, fname) := r : ndarray * string in
  let scl := Scalars fdata fname in
  g <- self_grid ;;
  data <- VtkData g [scl] ;;
  tofile data file_name format.

(** The named array made of one array of [_convert_species]. *)
Definition species_scalar (t : np_dtype) (a : ndarray) (name : string)
  : DataSetAttr :=
  Scalars (astype a t) name.

(** The world with the attribute [grid] in an arbitrary state. *)
Definition with_grid (g : option (option DataSet)) (w : World) : World :=
  {| self :=
       {| ts := ts (self w); path := path (self w); dtype := dtype (self w);
          dimensions := dimensions (self w); iteration := iteration (self w);
          zmin_fixed := zmin_fixed (self w); CommonMesh := CommonMesh (self w);
          Nth := Nth (self w); grid := g; select := select (self w);
          scalars := scalars (self w) |};
     disk := disk w; calls := calls w |}.

(** The files written so far in a call carry at most the mesh that is
    cached now. *)
Definition mesh_inv (s : Opmd2VTK) (files : list VtkFile) : Prop :=
  match grid s with
  | Some (Some g) => Forall (fun m => m = g) (meshes files)
  | _ => meshes files = []
  end.

End Vocabulary.

(** ** A small converter to run the methods on *)

Module Demo.

#[local] Instance foreign : Foreign := {|
  ndarray := list Z;
  np_dtype := unit;
  pyfloat := Z;
  selection := unit;
  pyobject := unit;
  astype := fun a _ => a;
  global_object := fun _ => tt
|}.

Definition mesh : DataSet := StructuredPoints tt tt tt.

(** The mesh is built on the first conversion and kept afterwards. *)
Definition with_mesh (s : Opmd2VTK) : Opmd2VTK :=
  match grid s with
  | Some (Some _) => s
  | _ => set_grid (Some mesh) s
  end.

#[local] Instance generic : opmd2VTKGeneric := {|
  _convert_field_vec_full := fun s fld => (with_mesh s, Ok ([1; 2; 3]%Z, fld));
  _convert_field_scl := fun s fld => (with_mesh s, Ok ([4]%Z, fld));
  _convert_field_vec_comp :=
    fun s fld comp => (with_mesh s, Ok ([5]%Z, fld +:+ comp));
  _convert_species :=
    fun s specie =>
      (s, Ok (tt, (fun _ => [6]%Z) <$> default [] (scalars s)))
|}.

(** A writer that refuses a missing mesh and never fails otherwise. *)
#[local] Instance writer : PyVTK := {|
  VtkData_fault :=
    fun g _ => match g with
               | None => Some (LibraryError "TypeError")
               | Some _ => None
               end;
  tofile_fault := fun _ => None
|}.

Definition series : TimeSeries := {|
  avail_fields := ["E"; "rho"];
  avail_species := ["electrons"; "ions"];
  fields_metadata :=
    {[ "E" := {[ "type" := "vector" ]};
       "rho" := {[ "type" := "scalar" ]};
       "T" := {[ "type" := "tensor" ]} ]}
|}.

(** A converter fresh from its constructor. *)
Definition fresh : Opmd2VTK := {|
  ts := series; path := "out/"; dtype := tt; dimensions := None;
  iteration := None; zmin_fixed := None; CommonMesh := None; Nth := None;
  grid := None; select := None; scalars := None
|}.

Definition world0 : World := {| self := fresh; disk := []; calls := [] |}.

End Demo.

(** ** More vocabulary *)

Section Vocabulary2.
Context `{F : Foreign} {G : opmd2VTKGeneric} {V : PyVTK}.

(** Whether a named array is a [Vectors]. *)
Definition is_Vectors (a : DataSetAttr) : bool :=
  match a with Vectors _ _ => true | Scalars _ _ => false end.

(** The kinds of array one field contributes, [CommonMesh] true: [true] for
    a [Vectors], [false] for a [Scalars]. *)
Definition field_kinds (t : TimeSeries) (fld : string) : list bool :=
  match declared_type t fld with
  | Some ty =>
      if String.eqb ty "vector" then [true]
      else if String.eqb ty "scalar" then [false]
      else []
  | None => []
  end.

(** The extractions of one field, [CommonMesh] true. *)
Definition common_calls (t : TimeSeries) (fld : string) : list Call :=
  match declared_type t fld with
  | Some ty =>
      if String.eqb ty "vector" then [Call_convert_field_vec_full fld]
      else if String.eqb ty "scalar" then [Call_convert_field_scl fld]
      else []
  | None => []
  end.

(** A field that has a declared type, which is neither ["scalar"] nor
    ["vector"]. *)
Definition untyped (t : TimeSeries) (fld : string) : Prop :=
  exists ty, declared_type t fld = Some ty /\ ty <> "scalar" /\ ty <> "vector".

(** An exception that a field converter of the parent class returned. *)
Definition raised_by_converter (e : exn) : Prop :=
  (exists s fld, snd (_convert_field_vec_full s fld) = Err e) \/
  (exists s fld, snd (_convert_field_scl s fld) = Err e) \/
  (exists s fld comp, snd (_convert_field_vec_comp s fld comp) = Err e).

(** An exception that pyvtk raised. *)
Definition raised_by_pyvtk (e : exn) : Prop :=
  (exists g pd, VtkData_fault g pd = Some e) \/
  (exists f, tofile_fault f = Some e).

(** The exceptions [write_fields_vtk] can end with on the field list
    [flds]. *)
Definition fields_exn (flds : list string) (e : exn) : Prop :=
  (exists k, e = KeyError k /\ (k ∈ flds \/ k = "type")) \/
  e = UnboundLocalError "comp" \/
  e = AttributeError "grid" \/
  raised_by_converter e \/
  raised_by_pyvtk e.

(** A file of the branch [CommonMesh] false: one [Scalars] array, in the
    format asked for. *)
Definition component_file (format : string) (f : VtkFile) : Prop :=
  file_format f = format /\
  exists fdata fname, point_data f = [Scalars fdata fname].

End Vocabulary2.

(** ** A second small converter, with faults *)

Module Demo2.

#[local] Existing Instance Demo.foreign.

(** The field ["B"] cannot be converted; [_convert_species] returns two
    arrays whatever was asked for. *)
#[local] Instance generic : opmd2VTKGeneric := {|
  _convert_field_vec_full :=
    fun s fld =>
      if String.eqb fld "B" then (s, Err (LibraryError "OSError"))
      else (Demo.with_mesh s, Ok ([1; 2; 3]%Z, fld));
  _convert_field_scl := fun s fld => (Demo.with_mesh s, Ok ([4]%Z, fld));
  _convert_field_vec_comp :=
    fun s fld comp =>
      if String.eqb fld "B" then (s, Err (LibraryError "OSError"))
      else (Demo.with_mesh s, Ok ([5]%Z, fld +:+ comp));
  _convert_species := fun s specie => (s, Ok (tt, [[6]%Z; [7]%Z]))
|}.

Definition series : TimeSeries := {|
  avail_fields := ["E"; "Ex"; "B"];
  avail_species := ["electrons"];
  fields_metadata :=
    {[ "E" := {[ "type" := "vector" ]};
       "Ex" := {[ "type" := "scalar" ]};
       "B" := {[ "type" := "vector" ]};
       "T" := {[ "type" := "tensor" ]} ]}
|}.

(** A converter whose [dimensions] a field converter has set. *)
Definition fresh : Opmd2VTK := {|
  ts := series; path := "out/"; dtype := tt; dimensions := Some tt;
  iteration := None; zmin_fixed := None; CommonMesh := None; Nth := None;
  grid := None; select := None; scalars := None
|}.

Definition world0 : World := {| self := fresh; disk := []; calls := [] |}.

(** A converter whose output directory has a replacement field in its
    name. *)
Definition braces : Opmd2VTK := {|
  ts := series; path := "run{1}/"; dtype := tt; dimensions := None;
  iteration := None; zmin_fixed := None; CommonMesh := None; Nth := None;
  grid := None; select := None; scalars := None
|}.

Definition world_braces : World := {| self := braces; disk := []; calls := [] |}.

End Demo2.

(** ** The files that the writes leave on the disk *)

(** [c.isspace()], for the characters of ASCII. *)
Definition is_blank (c : ascii) : bool :=
  let n := N_of_ascii c in
  ((9 <=? n) && (n <=? 13) || (28 <=? n) && (n <=? 32))%N.

(** [s.lstrip()] *)
Fixpoint lstrip (s : string) : string :=
  match s with
  | EmptyString => EmptyString
  | String c s' => if is_blank c then lstrip s' else s
  end.

(** [s.rstrip()] *)
Fixpoint rstrip (s : string) : string :=
  match s with
  | EmptyString => EmptyString
  | String c s' =>
      match rstrip s' with
      | EmptyString => if is_blank c then EmptyString else String c EmptyString
      | r => String c r
      end
  end.

(** [s.strip()] *)
Definition strip (s : string) : string := rstrip (lstrip s).

(** [s.endswith(suffix)] *)
Fixpoint ends_with (suffix s : string) : bool :=
  String.eqb s suffix ||
  match s with
  | EmptyString => false
  | String _ s' => ends_with suffix s'
  end.

(** The last character of a string. *)
Fixpoint last_char (s : string) : option ascii :=
  match s with
  | EmptyString => None
  | String c EmptyString => Some c
  | String _ s' => last_char s'
  end.

(** The file that pyvtk's [VtkData.tofile(filename, format)] opens for
    writing: [filename = filename.strip()], then
    [if filename[-4:] != '.vtk': filename += '.vtk']. *)
Definition vtk_filename (filename : string) : string :=
  let filename := strip filename in
  if ends_with ".vtk" filename then filename else filename +:+ ".vtk".

Section Files.
Context `{F : Foreign} {G : opmd2VTKGeneric}.

(** One write: pyvtk opens the file with mode [wb], which creates it or
    replaces what it held. *)
Definition write_file (fs : gmap string VtkFile) (f : VtkFile)
  : gmap string VtkFile :=
  <[vtk_filename (file_name f) := f]> fs.

(** The files that a list of writes leaves, by name. *)
Definition file_system (writes : list VtkFile) : gmap string VtkFile :=
  foldl write_file ∅ writes.

(** The file of a whole field list on the disk, [CommonMesh] true. *)
Definition common_file_on_disk (dir istr : string) : string :=
  lstrip dir +:+ "vtk_fields_" +:+ istr +:+ ".vtk".

(** The files of one field on the disk, [CommonMesh] false. *)
Definition field_files_on_disk (t : TimeSeries) (dir istr fld : string)
  : list string :=
  match declared_type t fld with
  | Some ty =>
      if String.eqb ty "vector" then
        [lstrip dir +:+ "vtk_fields_" +:+ (fld +:+ "x") +:+ "_" +:+ istr +:+ ".vtk";
         lstrip dir +:+ "vtk_fields_" +:+ (fld +:+ "y") +:+ "_" +:+ istr +:+ ".vtk";
         lstrip dir +:+ "vtk_fields_" +:+ (fld +:+ "z") +:+ "_" +:+ istr +:+ ".vtk"]
      else if String.eqb ty "scalar" then
        [lstrip dir +:+ "vtk_fields_" +:+ fld +:+ "_" +:+ istr +:+ ".vtk"]
      else []
  | None => []
  end.

(** The file of one species on the disk. *)
Definition species_file_on_disk (dir istr specie : string) : string :=
  lstrip dir +:+ "vtk_specie_" +:+ specie +:+ "_" +:+ istr +:+ ".vtk".

(** Whether a field has one of the two types the converter handles. *)
Definition has_known_type (t : TimeSeries) (fld : string) : bool :=
  match declared_type t fld with
  | Some ty => String.eqb ty "vector" || String.eqb ty "scalar"
  | None => false
  end.

(** The named array [a] is what the branch [CommonMesh] true makes of the
    field [fld]: the data and the name that the converter of the field's
    type returned, as a [Vectors] or as a [Scalars]. *)
Definition converted (t : TimeSeries) (fld : string) (a : DataSetAttr) : Prop :=
  match declared_type t fld with
  | Some ty =>
      if String.eqb ty "vector" then
        exists s fdata fname,
          snd (_convert_field_vec_full s fld) = Ok (fdata, fname) /\
          a = Vectors fdata fname
      else if String.eqb ty "scalar" then
        exists s fdata fname,
          snd (_convert_field_scl s fld) = Ok (fdata, fname) /\
          a = Scalars fdata fname
      else False
  | None => False
  end.

End Files.

(** ** A third small converter, with one array too many for one species *)

Module Demo3.

#[local] Existing Instance Demo.foreign.

(** [_convert_species] returns one array for each requested quantity, and
    one more for the species ["ions"]. *)
#[local] Instance generic : opmd2VTKGeneric := {|
  _convert_field_vec_full := fun s fld => (Demo.with_mesh s, Ok ([1; 2; 3]%Z, fld));
  _convert_field_scl := fun s fld => (Demo.with_mesh s, Ok ([4]%Z, fld));
  _convert_field_vec_comp :=
    fun s fld comp => (Demo.with_mesh s, Ok ([5]%Z, fld +:+ comp));
  _convert_species :=
    fun s specie =>
      let arrays := (fun _ => [6]%Z) <$> default [] (scalars s) in
      (s, Ok (tt, if String.eqb specie "ions" then [7]%Z :: arrays else arrays))
|}.

End Demo3.

Local Open Scope list_scope.

(** * Properties *)

(** ** Strings *)

Lemma append_cons (c : ascii) (s t : string) :
  String c s +:+ t = String c (s +:+ t).
Proof. reflexivity. Qed.

Lemma append_nil_l (s : string) : "" +:+ s = s.
Proof. reflexivity. Qed.

Lemma append_nil_r (s : string) : s +:+ "" = s.
Proof.
  induction s as [|c s IH]; [reflexivity |].
  rewrite append_cons. now rewrite IH.
Qed.

Lemma append_assoc (s1 s2 s3 : string) : (s1 +:+ s2) +:+ s3 = s1 +:+ (s2 +:+ s3).
Proof.
  induction s1 as [|c s1 IH]; [reflexivity |].
  rewrite !append_cons. now rewrite IH.
Qed.

Lemma length_append (s1 s2 : string) :
  String.length (s1 +:+ s2) = (String.length s1 + String.length s2)%nat.
Proof.
  induction s1 as [|c s1 IH]; [reflexivity |].
  rewrite append_cons. simpl. now rewrite IH.
Qed.

Lemma digits_of_small (n : N) :
  (n < 10)%N -> digits_of n = String (digit_char n) "".
Proof.
  intros Hn. rewrite digits_of_equation_1.
  destruct (decide (n < 10)%N); [reflexivity | contradiction].
Qed.

Lemma digits_of_big (n : N) :
  (10 <= n)%N ->
  digits_of n = digits_of (n / 10) +:+ String (digit_char (n mod 10)) "".
Proof.
  intros Hn. rewrite digits_of_equation_1.
  destruct (decide (n < 10)%N); [lia | reflexivity].
Qed.

Lemma zero_pad_short (s : string) :
  (String.length s < 7)%nat -> zero_pad s = zero_pad (String "0" s).
Proof.
  intros Hs. rewrite zero_pad_equation_1 at 1.
  destruct (decide (String.length s < 7)%nat); [reflexivity | contradiction].
Qed.

Lemma zero_pad_long (s : string) :
  (7 <= String.length s)%nat -> zero_pad s = s.
Proof.
  intros Hs. rewrite zero_pad_equation_1.
  destruct (decide (String.length s < 7)%nat); [lia | reflexivity].
Qed.

Lemma digit_val_char (d : N) : (d < 10)%N -> digit_val (digit_char d) = Some d.
Proof.
  intros Hd. unfold digit_val, digit_char.
  rewrite N_ascii_embedding by lia.
  replace ((48 <=? 48 + d)%N) with true by (symmetry; apply N.leb_le; lia).
  replace ((48 + d <=? 57)%N) with true by (symmetry; apply N.leb_le; lia).
  simpl. f_equal. lia.
Qed.

Lemma parse_digits_snoc (s : string) (c : ascii) (acc : N) :
  parse_digits acc (s +:+ String c "") =
  match parse_digits acc s with
  | Some a => match digit_val c with Some d => Some (10 * a + d)%N | None => None end
  | None => None
  end.
Proof.
  revert acc. induction s as [|c' s IH]; intros acc.
  - simpl. destruct (digit_val c); reflexivity.
  - rewrite append_cons. simpl.
    destruct (digit_val c'); [apply IH | reflexivity].
Qed.

(** Reading back the digits of a number gives the number. *)
Lemma parse_digits_of (n : N) : parse_digits 0 (digits_of n) = Some n.
Proof.
  induction n as [n IH] using (well_founded_induction N.lt_wf_0).
  destruct (decide (n < 10)%N) as [Hn|Hn].
  - rewrite digits_of_small by exact Hn. simpl.
    rewrite digit_val_char by exact Hn. f_equal; lia.
  - rewrite digits_of_big by lia. rewrite parse_digits_snoc.
    rewrite IH by (apply N.div_lt; lia).
    rewrite digit_val_char by (apply N.mod_lt; lia).
    f_equal. rewrite (N.div_mod n 10) at 3 by lia. reflexivity.
Qed.

(** A number below [10 ^ (k + 1)] has at most [k + 1] digits. *)
Lemma length_digits_of (k : nat) (n : N) :
  (n < 10 ^ N.of_nat (S k))%N -> (String.length (digits_of n) <= S k)%nat.
Proof.
  revert n. induction k as [|k IH]; intros n Hn.
  - rewrite digits_of_small by (simpl in Hn; lia). simpl. lia.
  - destruct (decide (n < 10)%N) as [Hs|Hs].
    + rewrite digits_of_small by exact Hs. simpl. lia.
    + rewrite digits_of_big by lia. rewrite length_append. simpl.
      assert (n / 10 < 10 ^ N.of_nat (S k))%N as Hq.
      { apply N.Div0.div_lt_upper_bound.
        rewrite <- N.pow_succ_r'. 
        replace (N.succ (N.of_nat (S k))) with (N.of_nat (S (S k))) by lia.
        exact Hn. }
      specialize (IH _ Hq). lia.
Qed.

Lemma length_zero_pad (s : string) :
  (String.length s <= 7)%nat -> String.length (zero_pad s) = 7%nat.
Proof.
  remember (7 - String.length s)%nat as k eqn:Hk.
  revert s Hk. induction k as [|k IH]; intros s Hk Hs.
  - rewrite zero_pad_long by lia. lia.
  - rewrite zero_pad_short by lia. apply IH; simpl; lia.
Qed.

Lemma parse_zero_pad (s : string) :
  parse_digits 0 (zero_pad s) = parse_digits 0 s.
Proof.
  remember (7 - String.length s)%nat as k eqn:Hk.
  revert s Hk. induction k as [|k IH]; intros s Hk.
  - rewrite zero_pad_long by lia. reflexivity.
  - rewrite zero_pad_short by lia. rewrite IH by (simpl; lia). reflexivity.
Qed.

Lemma zero_pad_nonempty (s : string) : zero_pad s <> "".
Proof.
  destruct (decide (String.length s <= 7)%nat) as [Hs|Hs].
  - intros E. apply length_zero_pad in Hs. rewrite E in Hs. discriminate.
  - rewrite zero_pad_long by lia. intros E. rewrite E in Hs. simpl in Hs. lia.
Qed.

(** [int] of a nonempty string of digits. *)
Lemma int_digits (s : string) (n : N) :
  s <> "" -> parse_digits 0 s = Some n -> int s = Some (Z.of_N n).
Proof.
  intros Hs Hp. destruct s as [|c s]; [contradiction |].
  unfold int. simpl in Hp.
  destruct (Ascii.eqb_spec c "-") as [->|_]; [discriminate |].
  destruct (Ascii.eqb_spec c "+") as [->|_]; [discriminate |].
  simpl. destruct (digit_val c); [| discriminate]. now rewrite Hp.
Qed.

Lemma iteration_string_spec (i : Z) :
  (0 <= i < 10000000)%Z ->
  String.length (zero_pad (str i)) = 7%nat /\ int (zero_pad (str i)) = Some i.
Proof.
  intros Hi. unfold str.
  replace (i <? 0)%Z with false by (symmetry; apply Z.ltb_ge; lia).
  split.
  - apply length_zero_pad. apply (length_digits_of 6).
    change (10 ^ N.of_nat 7)%N with 10000000%N. lia.
  - rewrite (int_digits _ (Z.to_N i)).
    + f_equal. lia.
    + apply zero_pad_nonempty.
    + rewrite parse_zero_pad. apply parse_digits_of.
Qed.

Example str_ex1 : str 3 = "3".
Proof. reflexivity. Qed.
Example str_ex2 : zero_pad (str 1203) = "0001203".
Proof. reflexivity. Qed.
Example str_ex3 : zero_pad (str (-5)) = "00000-5".
Proof. reflexivity. Qed.
Example str_ex4 : int "0001203" = Some 1203%Z.
Proof. reflexivity. Qed.
Example str_ex5 : str_format "vtk_fields_{}_{}" ["Ex"; "0000003"] = Some "vtk_fields_Ex_0000003".
Proof. reflexivity. Qed.
Example str_ex6 : str_format "a{b}/vtk_specie_{:}_{:}" ["e"; "0000003"] = None.
Proof. reflexivity. Qed.
Example str_ex7 : zero_pad (str 123456789) = "123456789".
Proof. reflexivity. Qed.

(** ** [str.format] on the name of a species file *)

Lemma str_format_cons (c : ascii) (rest : string) (args : list string) :
  str_format (String c rest) args =
  let field (r : list string -> option string) :=
    match args with
    | a :: args' => (fun x => a +:+ x) <$> r args'
    | [] => None
    end in
  if Ascii.eqb c "{" then
    match rest with
    | EmptyString => None
    | String c1 rest1 =>
        if Ascii.eqb c1 "{" then String "{" <$> str_format rest1 args
        else if Ascii.eqb c1 "}" then field (str_format rest1)
        else if Ascii.eqb c1 ":" then
          match rest1 with
          | EmptyString => None
          | String c2 rest2 =>
              if Ascii.eqb c2 "}" then field (str_format rest2) else None
          end
        else None
    end
  else if Ascii.eqb c "}" then
    match rest with
    | EmptyString => None
    | String c1 rest1 =>
        if Ascii.eqb c1 "}" then String "}" <$> str_format rest1 args else None
    end
  else String c <$> str_format rest args.
Proof. reflexivity. Qed.

Lemma brace_free_format (p : string) :
  brace_free p = true -> str_format p [] = Some p.
Proof.
  induction p as [|c p IH]; [reflexivity |].
  cbn [brace_free]. intros H.
  apply andb_prop in H as [H Hp]. apply andb_prop in H as [H1 H2].
  apply negb_true_iff in H1, H2.
  rewrite str_format_cons. cbv zeta. rewrite H1, H2, (IH Hp). reflexivity.
Qed.

(** The template of a species file cannot be formatted with fewer than two
    arguments, whatever stands before it. *)
Lemma format_species_short (p : string) (args : list string) :
  (length args < 2)%nat ->
  str_format (p +:+ "vtk_specie_{:}_{:}") args = None.
Proof.
  remember (String.length p) as k eqn:Hk. revert p args Hk.
  induction k as [k IH] using lt_wf_ind. intros p args Hk Hargs.
  destruct p as [|c p].
  { destruct args as [|a [|b args]]; [reflexivity | reflexivity | simpl in Hargs; lia]. }
  rewrite append_cons, str_format_cons. cbv zeta. simpl in Hk.
  destruct (Ascii.eqb c "{").
  - destruct p as [|c1 p]; [reflexivity |].
    rewrite append_cons. simpl in Hk.
    destruct (Ascii.eqb c1 "{").
    { rewrite (IH (String.length p)); [reflexivity | lia | reflexivity | assumption]. }
    destruct (Ascii.eqb c1 "}").
    { destruct args as [|a args]; [reflexivity |].
      rewrite (IH (String.length p)); [reflexivity | lia | reflexivity |].
      simpl in Hargs |- *. lia. }
    destruct (Ascii.eqb c1 ":"); [| reflexivity].
    destruct p as [|c2 p]; [reflexivity |].
    rewrite append_cons. simpl in Hk.
    destruct (Ascii.eqb c2 "}"); [| reflexivity].
    destruct args as [|a args]; [reflexivity |].
    rewrite (IH (String.length p)); [reflexivity | lia | reflexivity |].
    simpl in Hargs |- *. lia.
  - destruct (Ascii.eqb c "}").
    + destruct p as [|c1 p]; [reflexivity |].
      rewrite append_cons. simpl in Hk.
      destruct (Ascii.eqb c1 "}"); [| reflexivity].
      rewrite (IH (String.length p)); [reflexivity | lia | reflexivity | assumption].
    + rewrite (IH (String.length p)); [reflexivity | lia | reflexivity | assumption].
Qed.

(** When the name of a species file can be formatted, it is the directory,
    with its escaped braces unescaped, followed by [vtk_specie_], the
    species, [_] and the iteration string. *)
Lemma format_species (p a b n : string) :
  str_format (p +:+ "vtk_specie_{:}_{:}") [a; b] = Some n ->
  exists dir,
    str_format p [] = Some dir /\
    n = dir +:+ "vtk_specie_" +:+ a +:+ "_" +:+ b.
Proof.
  remember (String.length p) as k eqn:Hk. revert p n Hk.
  induction k as [k IH] using lt_wf_ind. intros p n Hk.
  destruct p as [|c p].
  { rewrite append_nil_l.
    replace (str_format "vtk_specie_{:}_{:}" [a; b])
      with (Some ("vtk_specie_" +:+ a +:+ "_" +:+ b +:+ "")) by reflexivity.
    rewrite append_nil_r. intros [= <-]. exists "". split; reflexivity. }
  rewrite append_cons, !str_format_cons. cbv zeta. simpl in Hk.
  destruct (Ascii.eqb c "{").
  - destruct p as [|c1 p]; [discriminate |].
    rewrite append_cons. simpl in Hk.
    destruct (Ascii.eqb c1 "{").
    { destruct (str_format (p +:+ _) [a; b]) as [r|] eqn:E; [| discriminate].
      intros [= <-].
      destruct (IH (String.length p) ltac:(lia) p r eq_refl E) as (dir & -> & ->).
      exists (String "{" dir). split; reflexivity. }
    destruct (Ascii.eqb c1 "}").
    { rewrite format_species_short by (simpl; lia). discriminate. }
    destruct (Ascii.eqb c1 ":"); [| discriminate].
    destruct p as [|c2 p]; [discriminate |].
    rewrite append_cons.
    destruct (Ascii.eqb c2 "}"); [| discriminate].
    rewrite format_species_short by (simpl; lia). discriminate.
  - destruct (Ascii.eqb c "}").
    + destruct p as [|c1 p]; [discriminate |].
      rewrite append_cons. simpl in Hk.
      destruct (Ascii.eqb c1 "}"); [| discriminate].
      destruct (str_format (p +:+ _) [a; b]) as [r|] eqn:E; [| discriminate].
      intros [= <-].
      destruct (IH (String.length p) ltac:(lia) p r eq_refl E) as (dir & -> & ->).
      exists (String "}" dir). split; reflexivity.
    + destruct (str_format (p +:+ _) [a; b]) as [r|] eqn:E; [| discriminate].
      intros [= <-].
      destruct (IH (String.length p) ltac:(lia) p r eq_refl E) as (dir & -> & ->).
      exists (String c dir). split; reflexivity.
Qed.

Lemma format_fields (a b : string) :
  str_format "vtk_fields_{}_{}" [a; b] = Some ("vtk_fields_" +:+ a +:+ "_" +:+ b).
Proof.
  transitivity (Some ("vtk_fields_" +:+ a +:+ "_" +:+ b +:+ "")).
  - reflexivity.
  - now rewrite append_nil_r.
Qed.

(** ** The names of the files on the disk *)

Lemma is_blank_digit (d : N) : (d < 10)%N -> is_blank (digit_char d) = false.
Proof.
  intros Hd. unfold is_blank, digit_char. rewrite N_ascii_embedding by lia.
  cbv zeta. apply orb_false_intro; apply andb_false_intro2; apply N.leb_gt; lia.
Qed.

Lemma digit_char_not_k (d : N) : (d < 10)%N -> digit_char d <> "k"%char.
Proof.
  intros Hd E. apply (f_equal N_of_ascii) in E. unfold digit_char in E.
  rewrite N_ascii_embedding in E by lia. cbn in E. lia.
Qed.

(** The iteration string ends with a digit. *)
Lemma digits_of_last (n : N) :
  exists s d, (d < 10)%N /\ digits_of n = s +:+ String (digit_char d) "".
Proof.
  destruct (decide (n < 10)%N) as [Hn|Hn].
  - exists "", n. rewrite digits_of_small by exact Hn. auto.
  - exists (digits_of (n / 10)), (n mod 10)%N. rewrite digits_of_big by lia.
    split; [apply N.mod_lt; lia | reflexivity].
Qed.

Lemma str_last (i : Z) :
  exists s d, (d < 10)%N /\ str i = s +:+ String (digit_char d) "".
Proof.
  unfold str. destruct (i <? 0)%Z.
  - destruct (digits_of_last (Z.to_N (- i))) as (s & d & Hd & ->).
    exists (String "-" s), d. auto.
  - apply digits_of_last.
Qed.

Lemma zero_pad_app (s : string) : exists z, zero_pad s = z +:+ s.
Proof.
  remember (7 - String.length s)%nat as k eqn:Hk.
  revert s Hk. induction k as [|k IH]; intros s Hk.
  - exists "". rewrite zero_pad_long by lia. reflexivity.
  - rewrite zero_pad_short by lia.
    destruct (IH (String "0" s)) as (z & ->); [simpl; lia |].
    exists (z +:+ "0"). now rewrite append_assoc.
Qed.

Lemma istr_last (i : Z) :
  exists s d, (d < 10)%N /\ zero_pad (str i) = s +:+ String (digit_char d) "".
Proof.
  destruct (zero_pad_app (str i)) as (z & ->).
  destruct (str_last i) as (s & d & Hd & ->).
  exists (z +:+ s), d. now rewrite append_assoc.
Qed.

Lemma lstrip_app_keep (s : string) c t :
  is_blank c = false -> lstrip (s +:+ String c t) = lstrip s +:+ String c t.
Proof.
  intros Hc. induction s as [|x s IH].
  - rewrite append_nil_l. cbn [lstrip]. now rewrite Hc.
  - rewrite append_cons. cbn [lstrip]. destruct (is_blank x); [exact IH |].
    now rewrite append_cons.
Qed.

Lemma rstrip_keep (s : string) c :
  is_blank c = false -> rstrip (s +:+ String c "") = s +:+ String c "".
Proof.
  intros Hc. induction s as [|x s IH].
  - rewrite append_nil_l. cbn [rstrip]. now rewrite Hc.
  - rewrite append_cons. cbn [rstrip]. rewrite IH.
    destruct s; reflexivity.
Qed.

Lemma last_char_app (s : string) c : last_char (s +:+ String c "") = Some c.
Proof.
  induction s as [|x s IH]; [reflexivity |].
  rewrite append_cons. cbn [last_char]. rewrite IH.
  destruct s; reflexivity.
Qed.

Lemma ends_with_vtk_last (s : string) :
  ends_with ".vtk" s = true -> last_char s = Some "k"%char.
Proof.
  induction s as [|x s IH]; [discriminate |].
  cbn [ends_with]. intros H. apply orb_true_iff in H as [H|H].
  - apply String.eqb_eq in H. now rewrite H.
  - specialize (IH H). cbn [last_char]. destruct s; [discriminate | exact IH].
Qed.

(** The name of the file on the disk, for a name that ends with a digit:
    leading blanks are dropped and [.vtk] is appended. *)
Lemma vtk_filename_digit (s : string) (d : N) :
  (d < 10)%N ->
  vtk_filename (s +:+ String (digit_char d) "") =
  lstrip (s +:+ String (digit_char d) "") +:+ ".vtk".
Proof.
  intros Hd. unfold vtk_filename, strip.
  rewrite lstrip_app_keep by now apply is_blank_digit.
  rewrite rstrip_keep by now apply is_blank_digit.
  destruct (ends_with ".vtk" _) eqn:E; [| reflexivity].
  apply ends_with_vtk_last in E. rewrite last_char_app in E.
  injection E as E. now apply digit_char_not_k in E.
Qed.

(** The names the converter builds: a directory, a stem that begins with a
    letter, the iteration string. *)
Lemma vtk_filename_name (dir : string) c (rest : string) (i : Z) :
  is_blank c = false ->
  vtk_filename (dir +:+ String c (rest +:+ zero_pad (str i))) =
  lstrip dir +:+ String c (rest +:+ zero_pad (str i) +:+ ".vtk").
Proof.
  intros Hc. destruct (istr_last i) as (t & d & Hd & ->).
  replace (dir +:+ String c (rest +:+ t +:+ String (digit_char d) ""))
    with ((dir +:+ String c (rest +:+ t)) +:+ String (digit_char d) "").
  2:{ rewrite append_assoc, append_cons. now rewrite append_assoc. }
  rewrite vtk_filename_digit by exact Hd.
  rewrite append_assoc, append_cons, append_assoc.
  rewrite lstrip_app_keep by exact Hc.
  rewrite append_assoc, append_cons. now rewrite !append_assoc.
Qed.

Lemma append_inj_r (s1 s2 t : string) : s1 +:+ t = s2 +:+ t -> s1 = s2.
Proof.
  revert s2. induction s1 as [|c s1 IH]; intros [|c2 s2] H.
  - reflexivity.
  - apply (f_equal String.length) in H. rewrite !length_append in H.
    cbn in H. lia.
  - apply (f_equal String.length) in H. rewrite !length_append in H.
    cbn in H. lia.
  - rewrite !append_cons in H. injection H as -> H. f_equal. now apply IH.
Qed.

Section FileSystem.
Context `{F : Foreign}.

Lemma file_system_app (l1 l2 : list VtkFile) :
  file_system (l1 ++ l2) = foldl write_file (file_system l1) l2.
Proof. apply foldl_app. Qed.

(** A file that no write names is left as it was. *)
Lemma writes_lookup_other (fs : gmap string VtkFile) (l : list VtkFile) n :
  n ∉ map (fun f => vtk_filename (file_name f)) l ->
  foldl write_file fs l !! n = fs !! n.
Proof.
  revert fs. induction l as [|f l IH]; intros fs Hn; [reflexivity |].
  cbn [foldl]. rewrite IH.
  - unfold write_file. apply lookup_insert_ne. intros E. apply Hn.
    cbn [map]. rewrite E. now left.
  - intros H. apply Hn. right. exact H.
Qed.

(** A file that a write names holds what the last such write gave it. *)
Lemma writes_lookup_written (fs : gmap string VtkFile) (l : list VtkFile) n :
  n ∈ map (fun f => vtk_filename (file_name f)) l ->
  exists f, foldl write_file fs l !! n = Some f /\ f ∈ l /\
            vtk_filename (file_name f) = n.
Proof.
  revert fs. induction l as [|f l IH]; intros fs Hn; [inversion Hn |].
  cbn [foldl].
  destruct (decide (n ∈ map (fun f => vtk_filename (file_name f)) l)) as [Hl|Hl].
  - destruct (IH (write_file fs f) Hl) as (f' & Hf & Hin & Hname).
    exists f'. split_and!; [exact Hf | now right | exact Hname].
  - rewrite writes_lookup_other by exact Hl.
    cbn [map] in Hn. apply elem_of_cons in Hn as [->|Hn]; [| contradiction].
    exists f. split_and!; [unfold write_file; apply lookup_insert_eq | now left | reflexivity].
Qed.


End FileSystem.

(** ** The methods, step by step *)

Section Steps.
Context `{F : Foreign} {G : opmd2VTKGeneric} {V : PyVTK}.

Lemma same_params_refl (s : Opmd2VTK) : same_params s s.
Proof. unfold same_params. tauto. Qed.

Lemma same_params_trans (s1 s2 s3 : Opmd2VTK) :
  same_params s1 s2 -> same_params s2 s3 -> same_params s1 s3.
Proof. unfold same_params. intuition congruence. Qed.

Lemma bind_Return {A B} (m : Py A) (k : A -> Py B) w w' a :
  m w = Return w' a -> bind m k w = k a w'.
Proof. intros E. unfold bind. now rewrite E. Qed.

Lemma bind_Raise {A B} (m : Py A) (k : A -> Py B) w w' e :
  m w = Raise w' e -> bind m k w = Raise w' e.
Proof. intros E. unfold bind. now rewrite E. Qed.

Lemma bind_congr {A B} (m m' : Py A) (k : A -> Py B) w :
  m w = m' w -> bind m k w = bind m' k w.
Proof. intros E. unfold bind. now rewrite E. Qed.

Lemma bind_assoc {A B C} (m : Py A) (k : A -> Py B) (h : B -> Py C) w :
  bind (bind m k) h w = bind m (fun a => bind (k a) h) w.
Proof. unfold bind. destruct (m w); reflexivity. Qed.

(** [write_fields_vtk] is its loop, run on the registered instance. *)
Lemma write_fields_vtk_unfold flds it fmt z nth cm (w : World) :
  write_fields_vtk flds it fmt z nth cm w =
  (if cm then
     vtk_container <- common_mesh_loop (resolve_fields flds w) [] ;;
     g <- self_grid ;;
     data <- VtkData g vtk_container ;;
     p <- self_path ;;
     tofile data (p +:+ "vtk_fields_" +:+ zero_pad (str it)) fmt
   else
     per_component_loop (zero_pad (str it)) fmt (resolve_fields flds w) None ;;;
     ret tt) (registered_fields it z cm nth w).
Proof. destruct flds, cm; reflexivity. Qed.

Lemma write_species_vtk_unfold species it fmt names sel z (w : World) :
  write_species_vtk species it fmt names sel z w =
  species_loop (path (self w) +:+ "vtk_specie_{:}_{:}") (zero_pad (str it)) fmt
    (resolve_species species w) (registered_species it z sel names w).
Proof. destruct species; reflexivity. Qed.

Lemma extract_and_write_Return fld comp name fmt (w w' : World) u :
  extract_and_write fld comp name fmt w = Return w' u ->
  exists fdata fname g,
    _convert_field_vec_comp (self w) fld comp = (self w', Ok (fdata, fname)) /\
    grid (self w') = Some g /\
    disk w' = disk w ++ [ {| file_name := name; structure := g;
                             point_data := [Scalars fdata fname];
                             file_format := fmt |} ] /\
    calls w' = calls w ++ [Call_convert_field_vec_comp fld comp].
Proof.
  unfold extract_and_write, bind, call_generic, self_grid, getattr, VtkData,
    tofile, ret, raise.
  destruct (_convert_field_vec_comp (self w) fld comp) as [s' [[fdata fname]|e]];
    simpl; [| discriminate].
  destruct (grid s') as [g|] eqn:Eg; [| discriminate].
  destruct (VtkData_fault g _); [discriminate |]. simpl.
  destruct (tofile_fault _); [discriminate |].
  intros [= <- _]. simpl. eauto 10.
Qed.

Lemma extract_and_write_Raise fld comp name fmt (w w' : World) e :
  extract_and_write fld comp name fmt w = Raise w' e ->
  self w' = fst (_convert_field_vec_comp (self w) fld comp) /\
  disk w' = disk w /\
  calls w' = calls w ++ [Call_convert_field_vec_comp fld comp].
Proof.
  unfold extract_and_write, bind, call_generic, self_grid, getattr, VtkData,
    tofile, ret, raise.
  destruct (_convert_field_vec_comp (self w) fld comp) as [s' [[fdata fname]|e']];
    simpl; [| intros [= <- _]; auto].
  destruct (grid s') as [g|] eqn:Eg; [| intros [= <- _]; auto].
  destruct (VtkData_fault g _); [intros [= <- _]; auto |]. simpl.
  destruct (tofile_fault _); [intros [= <- _]; auto | discriminate].
Qed.

Lemma comps_loop_cons istr fmt fld c comps comp (w : World) :
  comps_loop istr fmt fld (c :: comps) comp w =
  bind (extract_and_write fld c
          (path (self w) +:+ "vtk_fields_" +:+ (fld +:+ c) +:+ "_" +:+ istr) fmt)
       (fun _ => comps_loop istr fmt fld comps (Some c)) w.
Proof.
  cbn [comps_loop]. unfold self_path, get_self, format_.
  rewrite format_fields. unfold extract_and_write, bind, ret.
  destruct (call_generic _ _ w) as [w1 [fdata fname]|w1 e]; [| reflexivity].
  destruct (self_grid w1) as [w2 g|w2 e]; [| reflexivity].
  destruct (VtkData g _ w2) as [w3 d|w3 e]; reflexivity.
Qed.

Lemma scalar_branch_eq istr fmt fld comp (w : World) :
  (p <- self_path ;;
   n <- format_ "vtk_fields_{}_{}" [fld; istr] ;;
   let file_name := p +:+ n in
   c <- load_fast "comp" comp ;;
   r <- call_generic (Call_convert_field_vec_comp fld c)
          (fun s => _convert_field_vec_comp s fld c) ;;
   let (fdata, fname) := r : ndarray * string in
   let scl := Scalars fdata fname in
   g <- self_grid ;;
   data <- VtkData g [scl] ;;
   tofile data file_name fmt ;;;
   ret comp) w =
  match comp with
  | None => Raise w (UnboundLocalError "comp")
  | Some c =>
      bind (extract_and_write fld c
              (path (self w) +:+ "vtk_fields_" +:+ fld +:+ "_" +:+ istr) fmt)
           (fun _ => ret comp) w
  end.
Proof.
  unfold self_path, get_self, format_. rewrite format_fields.
  destruct comp as [c|]; [| reflexivity].
  unfold extract_and_write, bind, load_fast, ret.
  destruct (call_generic _ _ w) as [w1 [fdata fname]|w1 e]; [| reflexivity].
  destruct (self_grid w1) as [w2 g|w2 e]; [| reflexivity].
  destruct (VtkData g _ w2) as [w3 d|w3 e]; reflexivity.
Qed.

Lemma field_type_of_eq fld (w : World) :
  field_type_of fld w =
  match fields_metadata (ts (self w)) !! fld with
  | None => Raise w (KeyError fld)
  | Some info =>
      match info !! "type" with
      | None => Raise w (KeyError "type")
      | Some t => Return w t
      end
  end.
Proof.
  unfold field_type_of, bind, get_self.
  destruct (fields_metadata (ts (self w)) !! fld) as [info|]; [| reflexivity].
  destruct (info !! "type"); reflexivity.
Qed.

Lemma per_component_body_eq istr fmt fld comp (w : World) :
  per_component_body istr fmt fld comp w =
  match fields_metadata (ts (self w)) !! fld with
  | None => Raise w (KeyError fld)
  | Some info =>
      match info !! "type" with
      | None => Raise w (KeyError "type")
      | Some ty =>
          if String.eqb ty "vector" then
            comps_loop istr fmt fld ["x"; "y"; "z"] comp w
          else if String.eqb ty "scalar" then
            match comp with
            | None => Raise w (UnboundLocalError "comp")
            | Some c =>
                bind (extract_and_write fld c
                        (path (self w) +:+ "vtk_fields_" +:+ fld +:+ "_" +:+ istr)
                        fmt)
                     (fun _ => ret comp) w
            end
          else Return w comp
      end
  end.
Proof.
  unfold per_component_body. unfold bind at 1. rewrite field_type_of_eq.
  destruct (fields_metadata (ts (self w)) !! fld) as [info|]; [| reflexivity].
  destruct (info !! "type") as [ty|]; [| reflexivity].
  destruct (String.eqb ty "vector"); [reflexivity |].
  destruct (String.eqb ty "scalar"); [| reflexivity].
  apply scalar_branch_eq.
Qed.

Lemma common_mesh_body_eq fld (c : list DataSetAttr) (w : World) :
  common_mesh_body fld c w =
  match fields_metadata (ts (self w)) !! fld with
  | None => Raise w (KeyError fld)
  | Some info =>
      match info !! "type" with
      | None => Raise w (KeyError "type")
      | Some ty =>
          if String.eqb ty "vector" then
            bind (call_generic (Call_convert_field_vec_full fld)
                    (fun s => _convert_field_vec_full s fld))
                 (fun r => ret (c ++ [Vectors (fst r) (snd r)])) w
          else if String.eqb ty "scalar" then
            bind (call_generic (Call_convert_field_scl fld)
                    (fun s => _convert_field_scl s fld))
                 (fun r => ret (c ++ [Scalars (fst r) (snd r)])) w
          else Return w c
      end
  end.
Proof.
  unfold common_mesh_body. unfold bind at 1. rewrite field_type_of_eq.
  destruct (fields_metadata (ts (self w)) !! fld) as [info|]; [| reflexivity].
  destruct (info !! "type") as [ty|]; [| reflexivity].
  destruct (String.eqb ty "vector").
  { unfold bind. destruct (call_generic _ _ w) as [w1 [fd fn]|w1 e]; reflexivity. }
  destruct (String.eqb ty "scalar"); [| reflexivity].
  unfold bind. destruct (call_generic _ _ w) as [w1 [fd fn]|w1 e]; reflexivity.
Qed.

Lemma call_generic_world {A} c (method : Opmd2VTK -> Opmd2VTK * result A)
    (w : World) :
  world_of (call_generic c method w) =
  {| self := fst (method (self w)); disk := disk w; calls := calls w ++ [c] |}.
Proof.
  unfold call_generic. destruct (method (self w)) as [s' [a|e]]; reflexivity.
Qed.

Lemma per_component_loop_app istr fmt l1 l2 comp (w : World) :
  per_component_loop istr fmt (l1 ++ l2) comp w =
  bind (per_component_loop istr fmt l1 comp)
       (fun c => per_component_loop istr fmt l2 c) w.
Proof.
  revert comp w. induction l1 as [|fld l1 IH]; intros comp w; [reflexivity |].
  cbn [app per_component_loop]. unfold bind.
  destruct (per_component_body istr fmt fld comp w) as [w1 c1|w1 e];
    [exact (IH c1 w1) | reflexivity].
Qed.

Lemma common_mesh_loop_app l1 l2 (c : list DataSetAttr) (w : World) :
  common_mesh_loop (l1 ++ l2) c w =
  bind (common_mesh_loop l1 c) (fun c' => common_mesh_loop l2 c') w.
Proof.
  revert c w. induction l1 as [|fld l1 IH]; intros c w; [reflexivity |].
  cbn [app common_mesh_loop]. unfold bind.
  destruct (common_mesh_body fld c w) as [w1 c1|w1 e];
    [exact (IH c1 w1) | reflexivity].
Qed.

Lemma declared_type_lookup (t : TimeSeries) fld ty :
  declared_type t fld = Some ty ->
  exists info, fields_metadata t !! fld = Some info /\ info !! "type" = Some ty.
Proof.
  unfold declared_type. destruct (fields_metadata t !! fld) as [info|]; simpl;
    [eauto | discriminate].
Qed.

Lemma field_calls_elem (t : TimeSeries) fld c :
  c ∈ field_calls t fld ->
  exists comp, c = Call_convert_field_vec_comp fld comp /\
    (declared_type t fld = Some "scalar" -> comp = "z").
Proof.
  unfold field_calls. destruct (declared_type t fld) as [ty|];
    [| intros H; inversion H].
  destruct (String.eqb_spec ty "vector") as [->|Hv].
  - intros H. repeat (apply elem_of_cons in H as [->|H]);
      [eexists; split; [reflexivity | discriminate] ..| inversion H].
  - destruct (String.eqb ty "scalar"); intros H.
    + apply list_elem_of_singleton in H as ->. eauto.
    + inversion H.
Qed.

Lemma field_calls_scalar (t : TimeSeries) fld :
  declared_type t fld = Some "scalar" ->
  field_calls t fld = [Call_convert_field_vec_comp fld "z"].
Proof. unfold field_calls. now intros ->. Qed.


Lemma common_mesh_loop_disk flds (c : list DataSetAttr) (w : World) :
  disk (world_of (common_mesh_loop flds c w)) = disk w.
Proof.
  revert c w. induction flds as [|fld flds IH]; intros c w; [reflexivity |].
  cbn [common_mesh_loop]. unfold bind.
  assert (disk (world_of (common_mesh_body fld c w)) = disk w) as Hd.
  { rewrite common_mesh_body_eq.
    destruct (fields_metadata (ts (self w)) !! fld) as [info|]; [| reflexivity].
    destruct (info !! "type") as [ty|]; [| reflexivity].
    destruct (String.eqb ty "vector").
    { unfold bind.
      pose proof (call_generic_world (Call_convert_field_vec_full fld)
                    (fun s => _convert_field_vec_full s fld) w) as Hw.
      destruct (call_generic _ _ w) as [w1 r|w1 e]; simpl in *; now subst w1. }
    destruct (String.eqb ty "scalar"); [| reflexivity].
    unfold bind.
    pose proof (call_generic_world (Call_convert_field_scl fld)
                  (fun s => _convert_field_scl s fld) w) as Hw.
    destruct (call_generic _ _ w) as [w1 r|w1 e]; simpl in *; now subst w1. }
  destruct (common_mesh_body fld c w) as [w1 c1|w1 e]; simpl in *; [| exact Hd].
  now rewrite IH.
Qed.
Lemma registered_fields_eq it z cm nth (w w2 : World) :
  differ_in_fields_params w w2 ->
  registered_fields it z cm nth w2 = registered_fields it z cm nth w.
Proof.
  destruct w as [[] ? ?], w2 as [[] ? ?]. unfold differ_in_fields_params.
  cbn. intros (-> & -> & -> & -> & -> & -> & -> & ->). reflexivity.
Qed.

Lemma registered_species_eq it z sel names (w w2 : World) :
  differ_in_species_params w w2 ->
  registered_species it z sel names w2 = registered_species it z sel names w.
Proof.
  destruct w as [[] ? ?], w2 as [[] ? ?]. unfold differ_in_species_params.
  cbn. intros (-> & -> & -> & -> & -> & -> & -> & -> & ->). reflexivity.
Qed.

(** The old values of the attributes [write_fields_vtk] assigns do not
    matter to a call. *)
Lemma write_fields_vtk_overwrites flds it fmt z nth cm (w w2 : World) :
  differ_in_fields_params w w2 ->
  write_fields_vtk flds it fmt z nth cm w2 = write_fields_vtk flds it fmt z nth cm w.
Proof.
  intros H. rewrite !write_fields_vtk_unfold, (registered_fields_eq _ _ _ _ _ _ H).
  assert (resolve_fields flds w2 = resolve_fields flds w) as ->; [| reflexivity].
  destruct flds; [reflexivity |]. simpl. now destruct H as (-> & _).
Qed.

Lemma write_species_vtk_overwrites species it fmt names sel z (w w2 : World) :
  differ_in_species_params w w2 ->
  write_species_vtk species it fmt names sel z w2 =
  write_species_vtk species it fmt names sel z w.
Proof.
  intros H. rewrite !write_species_vtk_unfold, (registered_species_eq _ _ _ _ _ _ H).
  assert (resolve_species species w2 = resolve_species species w) as ->.
  { destruct species; [reflexivity |]. simpl. now destruct H as (-> & _). }
  now destruct H as (_ & -> & _).
Qed.

(** What the last statement of the branch [CommonMesh] true leaves. *)
Lemma common_mesh_write (c : list DataSetAttr) name fmt (w : World) :
  let o := (g <- self_grid ;; data <- VtkData g c ;; p <- self_path ;;
            tofile data (p +:+ name) fmt) w in
  self (world_of o) = self w /\
  (disk (world_of o) = disk w \/
   exists g, grid (self w) = Some g /\
     disk (world_of o) =
       disk w ++ [ {| file_name := path (self w) +:+ name; structure := g;
                      point_data := c; file_format := fmt |} ]).
Proof.
  cbv zeta.
  unfold self_grid, getattr, VtkData, self_path, get_self, tofile, bind, ret, raise.
  cbv beta iota.
  destruct (grid (self w)) as [g|]; [| auto].
  destruct (VtkData_fault g c); [auto |]. cbn.
  destruct (tofile_fault _); [auto |]. cbn. eauto.
Qed.


Lemma mesh_inv_unique (s : Opmd2VTK) (files : list VtkFile) m1 m2 :
  mesh_inv s files -> m1 ∈ meshes files -> m2 ∈ meshes files -> m1 = m2.
Proof.
  unfold mesh_inv. intros H H1 H2.
  destruct (grid s) as [[g|]|].
  - rewrite Forall_forall in H. rewrite (H _ H1), (H _ H2). reflexivity.
  - rewrite H in H1. inversion H1.
  - rewrite H in H1. inversion H1.
Qed.

Lemma meshes_app (l1 l2 : list VtkFile) : meshes (l1 ++ l2) = meshes l1 ++ meshes l2.
Proof. unfold meshes. apply omap_app. Qed.

Section Mesh.
Hypothesis Hcache : caches_mesh.

Lemma extract_and_write_mesh fld comp name fmt (w : World) files :
  mesh_inv (self w) files ->
  let o := extract_and_write fld comp name fmt w in
  exists new, disk (world_of o) = disk w ++ new /\
    mesh_inv (self (world_of o)) (files ++ new).
Proof.
  intros Hinv. cbv zeta.
  destruct (extract_and_write fld comp name fmt w) as [w1 u|w1 e] eqn:E.
  - apply extract_and_write_Return in E as (fd & fn & g & Hh & Hg & Hd & _).
    eexists. split; [exact Hd |]. cbn [world_of].
    unfold mesh_inv in *. rewrite meshes_app, Hg.
    destruct (grid (self w)) as [[g0|]|] eqn:Eg.
    + destruct (Hcache (self w) fld g0 Eg) as (_ & _ & Hc).
      specialize (Hc comp). rewrite Hh in Hc. cbn in Hc.
      rewrite Hg in Hc. injection Hc as ->.
      apply Forall_app. split; [exact Hinv |]. cbn. repeat constructor.
    + rewrite Hinv. destruct g as [g|]; cbn; [repeat constructor | reflexivity].
    + rewrite Hinv. destruct g as [g|]; cbn; [repeat constructor | reflexivity].
  - apply extract_and_write_Raise in E as (Hs & Hd & _).
    exists []. rewrite !app_nil_r. split; [exact Hd |]. cbn [world_of].
    unfold mesh_inv in *.
    destruct (grid (self w)) as [[g0|]|] eqn:Eg.
    + destruct (Hcache (self w) fld g0 Eg) as (_ & _ & Hc).
      specialize (Hc comp). rewrite <- Hs in Hc. now rewrite Hc.
    + rewrite Hinv. destruct (grid (self w1)) as [[g|]|]; constructor.
    + rewrite Hinv. destruct (grid (self w1)) as [[g|]|]; constructor.
Qed.

Lemma comps_loop_mesh istr fmt fld comps comp (w : World) files :
  mesh_inv (self w) files ->
  let o := comps_loop istr fmt fld comps comp w in
  exists new, disk (world_of o) = disk w ++ new /\
    mesh_inv (self (world_of o)) (files ++ new).
Proof.
  revert comp w files. induction comps as [|c comps IH]; intros comp w files Hinv.
  - exists []. rewrite !app_nil_r. split; [reflexivity | exact Hinv].
  - cbv zeta. rewrite comps_loop_cons. unfold bind.
    destruct (extract_and_write_mesh fld c
                (path (self w) +:+ "vtk_fields_" +:+ (fld +:+ c) +:+ "_" +:+ istr)
                fmt w files Hinv) as (new & Hd & Hinv1).
    destruct (extract_and_write _ _ _ _ w) as [w1 u|w1 e]; cbn [world_of] in *.
    + destruct (IH (Some c) w1 _ Hinv1) as (new1 & Hd1 & Hinv2).
      exists (new ++ new1). rewrite Hd1, Hd, !app_assoc. split; [reflexivity |].
      exact Hinv2.
    + exists new. auto.
Qed.

Lemma per_component_loop_mesh istr fmt flds comp (w : World) files :
  mesh_inv (self w) files ->
  let o := per_component_loop istr fmt flds comp w in
  exists new, disk (world_of o) = disk w ++ new /\
    mesh_inv (self (world_of o)) (files ++ new).
Proof.
  revert comp w files. induction flds as [|fld flds IH]; intros comp w files Hinv.
  - exists []. rewrite !app_nil_r. split; [reflexivity | exact Hinv].
  - cbv zeta. cbn [per_component_loop]. unfold bind.
    assert (exists new,
              disk (world_of (per_component_body istr fmt fld comp w)) =
                disk w ++ new /\
              mesh_inv (self (world_of (per_component_body istr fmt fld comp w)))
                (files ++ new)) as (new & Hd & Hinv1).
    { rewrite per_component_body_eq.
      assert (exists new : list VtkFile,
                disk w = disk w ++ new /\ mesh_inv (self w) (files ++ new)) as Hsame
        by (exists []; rewrite !app_nil_r; auto).
      destruct (fields_metadata (ts (self w)) !! fld) as [info|]; [| exact Hsame].
      destruct (info !! "type") as [ty|]; [| exact Hsame].
      destruct (String.eqb ty "vector"); [now apply comps_loop_mesh |].
      destruct (String.eqb ty "scalar"); [| exact Hsame].
      destruct comp as [c|]; [| exact Hsame].
      unfold bind.
      destruct (extract_and_write_mesh fld c
                  (path (self w) +:+ "vtk_fields_" +:+ fld +:+ "_" +:+ istr)
                  fmt w files Hinv) as (new & Hd & Hinv1).
      destruct (extract_and_write _ _ _ _ w); exists new; auto. }
    destruct (per_component_body istr fmt fld comp w) as [w1 c1|w1 e];
      cbn [world_of] in *.
    + destruct (IH c1 w1 _ Hinv1) as (new1 & Hd1 & Hinv2).
      exists (new ++ new1). rewrite Hd1, Hd, !app_assoc. split; [reflexivity |].
      exact Hinv2.
    + exists new. auto.
Qed.

End Mesh.

(** C5. [write_fields_vtk] resets the mesh before it processes any field:
    the loops of the call start on an instance whose [grid] is [None], so
    the outcome of the call does not depend on what [grid] held before, a
    mesh of an earlier call or nothing. And when the converters of the
    parent class cache the mesh, the files one call writes all carry the
    same mesh. *)
Theorem mesh_reset_each_call flds it fmt z nth cm (w : World) :
  let o := write_fields_vtk flds it fmt z nth cm w in
  let w0 := registered_fields it z cm nth w in
  (grid (self w0) = Some None /\
   o = (if cm then
          vtk_container <- common_mesh_loop (resolve_fields flds w) [] ;;
          g <- self_grid ;;
          data <- VtkData g vtk_container ;;
          p <- self_path ;;
          tofile data (p +:+ "vtk_fields_" +:+ zero_pad (str it)) fmt
        else
          per_component_loop (zero_pad (str it)) fmt (resolve_fields flds w) None ;;;
          ret tt) w0) /\
  (forall g, write_fields_vtk flds it fmt z nth cm (with_grid g w) = o) /\
  (caches_mesh ->
   exists new, disk (world_of o) = disk w ++ new /\
     forall m1 m2, m1 ∈ meshes new -> m2 ∈ meshes new -> m1 = m2).
Proof.
  cbv zeta. split_and!.
  - reflexivity.
  - apply write_fields_vtk_unfold.
  - intros g. apply write_fields_vtk_overwrites.
    unfold differ_in_fields_params. cbn. tauto.
  - intros Hcache. rewrite write_fields_vtk_unfold.
    set (w0 := registered_fields it z cm nth w).
    change (disk w) with (disk w0). destruct cm; unfold bind at 1.
    + pose proof (common_mesh_loop_disk (resolve_fields flds w) [] w0) as Hd.
      destruct (common_mesh_loop _ _ w0) as [w1 c|w1 e]; cbn [world_of] in *.
      * destruct (common_mesh_write c ("vtk_fields_" +:+ zero_pad (str it)) fmt w1)
          as (_ & [Hw | (g & _ & Hw)]); cbv zeta in Hw; rewrite Hw, Hd.
        -- exists []. rewrite app_nil_r. split; [reflexivity |].
           intros m1 m2 H. inversion H.
        -- eexists [_]. split; [reflexivity |]. cbn.
           destruct g as [g|]; cbn; intros m1 m2 H1 H2.
           ++ apply list_elem_of_singleton in H1, H2. congruence.
           ++ inversion H1.
      * exists []. rewrite app_nil_r. split; [exact Hd |].
        intros m1 m2 H. inversion H.
    + destruct (per_component_loop_mesh Hcache (zero_pad (str it)) fmt
                  (resolve_fields flds w) None w0 []) as (new & Hd & Hinv);
        [reflexivity |].
      exists new. split.
      * destruct (per_component_loop _ _ _ _ w0); exact Hd.
      * intros m1 m2. eapply mesh_inv_unique.
        rewrite app_nil_l in Hinv. exact Hinv.
Qed.

(** ** The mesh builders *)

(** C8, as amended. A call to [_get_mesh_circ] never returns and leaves the
    instance, its [grid] included, as it was. On an instance where [Nth] is
    set the exception is the [NameError] of the unbound global [Nr]; where
    [Nth] has not been set yet, [self.Nth], which is evaluated first, raises
    [AttributeError]. *)
Theorem get_mesh_circ_raises (dims points : pyobject) (w : World) :
  _get_mesh_circ dims points w =
  Raise w (match Nth (self w) with
           | Some _ => NameError "Nr"
           | None => AttributeError "Nth"
           end).
Proof.
  unfold _get_mesh_circ, self_Nth, getattr, bind. destruct (Nth (self w)); reflexivity.
Qed.

(** ** The iteration string *)

(** C3. For an iteration number from 0 to 9999999, the string that both
    public methods build from [self.iteration] has seven characters and
    [int] reads the number back from it. *)
Theorem iteration_suffix_roundtrip (i : Z) (w : World) :
  iteration (self w) = Some i ->
  (0 <= i < 10000000)%Z ->
  exists istr,
    make_istr w = Return w istr /\
    String.length istr = 7%nat /\ int istr = Some i.
Proof.
  intros Hi Hr. exists (zero_pad (str i)). split.
  - unfold make_istr, self_iteration, getattr, bind. now rewrite Hi.
  - now apply iteration_string_spec.
Qed.

(** Without a vector field in the list no converter is ever called. *)
Lemma per_component_loop_no_vector istr fmt flds (w : World) :
  (forall g, g ∈ flds -> declared_type (ts (self w)) g <> Some "vector") ->
  calls (world_of (per_component_loop istr fmt flds None w)) = calls w.
Proof.
  induction flds as [|g flds IH]; intros Hno; [reflexivity |].
  cbn [per_component_loop]. unfold bind. rewrite per_component_body_eq.
  assert (declared_type (ts (self w)) g <> Some "vector") as Hg
    by (apply Hno; now left).
  unfold declared_type in Hg.
  destruct (fields_metadata (ts (self w)) !! g) as [info|]; [| reflexivity].
  cbn in Hg. destruct (info !! "type") as [ty|]; [| reflexivity].
  destruct (String.eqb_spec ty "vector") as [->|_]; [contradiction |].
  destruct (String.eqb ty "scalar"); [reflexivity |].
  apply IH. intros g' Hg'. apply Hno. now right.
Qed.

(** C9. With [CommonMesh] false, a field of scalar type that comes before
    any field of vector type makes the call raise [UnboundLocalError], a
    [NameError], for the variable [comp]; nothing has been written. *)
Theorem scalar_before_vector_raises flds it fmt z nth (w : World) pre fld post :
  resolve_fields flds w = pre ++ fld :: post ->
  (forall g, g ∈ pre ->
     exists ty, declared_type (ts (self w)) g = Some ty /\ ty <> "vector") ->
  declared_type (ts (self w)) fld = Some "scalar" ->
  exists w' e,
    write_fields_vtk flds it fmt z nth false w = Raise w' e /\
    e = UnboundLocalError "comp" /\ is_NameError e = true /\
    disk w' = disk w.
Proof.
  intros Hl Hpre Hty. rewrite write_fields_vtk_unfold, Hl.
  set (w0 := registered_fields it z false nth w).
  exists w0, (UnboundLocalError "comp"). split_and!; try reflexivity.
  unfold bind at 1.
  enough (per_component_loop (zero_pad (str it)) fmt (pre ++ fld :: post) None w0
          = Raise w0 (UnboundLocalError "comp")) as -> by reflexivity.
  change (ts (self w)) with (ts (self w0)) in *. clearbody w0. clear Hl.
  induction pre as [|g pre IH]; cbn [app per_component_loop]; unfold bind;
    rewrite per_component_body_eq.
  - apply declared_type_lookup in Hty as (info & -> & ->). reflexivity.
  - destruct (Hpre g) as (ty & Hg & Hv); [now left |].
    apply declared_type_lookup in Hg as (info & -> & ->).
    apply String.eqb_neq in Hv. rewrite Hv.
    destruct (String.eqb ty "scalar"); [reflexivity |].
    apply IH. intros g' Hg'. apply Hpre. now right.
Qed.


End Steps.

(** ** What a call writes and extracts *)

Section Traces.
Context `{F : Foreign} {G : opmd2VTKGeneric} {V : PyVTK}.
Hypothesis Hkeeps : keeps_params.

Lemma vec_comp_keeps (s s' : Opmd2VTK) fld comp r :
  _convert_field_vec_comp s fld comp = (s', r) -> same_params s s'.
Proof.
  intros E. destruct Hkeeps as (_ & _ & H & _).
  specialize (H s fld comp). now rewrite E in H.
Qed.

Lemma comps_loop_trace istr fmt fld comps comp (w : World) :
  let o := comps_loop istr fmt fld comps comp w in
  same_params (self w) (self (world_of o)) /\
  exists files cs,
    disk (world_of o) = disk w ++ files /\
    calls (world_of o) = calls w ++ cs /\
    map file_name files `prefix_of` map (comp_file (path (self w)) istr fld) comps /\
    cs `prefix_of` map (Call_convert_field_vec_comp fld) comps /\
    (forall w' c', o = Return w' c' ->
       map file_name files = map (comp_file (path (self w)) istr fld) comps /\
       cs = map (Call_convert_field_vec_comp fld) comps /\
       c' = last_comp comps comp).
Proof.
  revert comp w. induction comps as [|c comps IH]; intros comp w.
  - simpl. split; [apply same_params_refl |].
    exists [], []. rewrite !app_nil_r. split_and!; try reflexivity.
    intros w' c' [= _ <-]. split_and!; reflexivity.
  - cbv zeta. rewrite comps_loop_cons. unfold bind.
    destruct (extract_and_write _ _ _ _ w) as [w1 u|w1 e] eqn:E.
    + apply extract_and_write_Return in E as (fd & fn & g & Hh & Hg & Hd & Hc).
      pose proof (vec_comp_keeps _ _ _ _ _ Hh) as Hs.
      destruct (IH (Some c) w1) as (Hs1 & files & cs & Hd1 & Hc1 & Hp1 & Hp2 & Hr).
      assert (path (self w1) = path (self w)) as Hpath by apply Hs.
      rewrite Hpath in *.
      split; [eapply same_params_trans; eassumption |].
      eexists (_ :: files), (_ :: cs).
      rewrite Hd1, Hd, Hc1, Hc, <- !app_assoc. simpl.
      split_and!; try reflexivity.
      * apply (prefix_app [_]), Hp1.
      * apply (prefix_app [_]), Hp2.
      * intros w' c' H. destruct (Hr _ _ H) as (-> & -> & ->).
        split_and!; try reflexivity. unfold last_comp.
        rewrite last_cons. destruct (last comps); reflexivity.
    + apply extract_and_write_Raise in E as (Hs & Hd & Hc). simpl.
      split.
      { rewrite Hs. destruct (_convert_field_vec_comp (self w) fld c) eqn:E.
        eapply vec_comp_keeps, E. }
      exists [], [Call_convert_field_vec_comp fld c].
      rewrite Hd, Hc, app_nil_r. split_and!; try reflexivity.
      * apply prefix_nil.
      * apply (prefix_app_r [_] [_]). reflexivity.
      * discriminate.
Qed.

Lemma per_component_body_trace istr fmt fld comp (w : World) :
  comp = None \/ comp = Some "z" ->
  let o := per_component_body istr fmt fld comp w in
  same_params (self w) (self (world_of o)) /\
  exists files cs,
    disk (world_of o) = disk w ++ files /\
    calls (world_of o) = calls w ++ cs /\
    map file_name files `prefix_of`
      field_files (ts (self w)) (path (self w)) istr fld /\
    cs `prefix_of` field_calls (ts (self w)) fld /\
    (forall w' c', o = Return w' c' ->
       map file_name files = field_files (ts (self w)) (path (self w)) istr fld /\
       cs = field_calls (ts (self w)) fld /\
       (c' = None \/ c' = Some "z")).
Proof.
  intros Hcomp. cbv zeta. rewrite per_component_body_eq.
  unfold field_files, field_calls, declared_type.
  destruct (fields_metadata (ts (self w)) !! fld) as [info|]; cbn [mbind option_bind];
    [destruct (info !! "type") as [ty|] |].
  - destruct (String.eqb ty "vector").
    { destruct (comps_loop_trace istr fmt fld ["x"; "y"; "z"] comp w)
        as (Hs & files & cs & Hd & Hc & Hp1 & Hp2 & Hr).
      split; [exact Hs |]. exists files, cs. split_and!; try assumption.
      intros w' c' H. destruct (Hr _ _ H) as (-> & -> & ->).
      split_and!; try reflexivity. now right. }
    destruct (String.eqb ty "scalar").
    { destruct Hcomp as [-> | ->].
      - simpl. split; [apply same_params_refl |]. exists [], [].
        rewrite !app_nil_r. split_and!; try reflexivity; try apply prefix_nil.
        discriminate.
      - unfold bind.
        destruct (extract_and_write _ _ _ _ w) as [w1 u|w1 e] eqn:E.
        + apply extract_and_write_Return in E as (fd & fn & g & Hh & Hg & Hd & Hc).
          simpl. split; [eapply vec_comp_keeps, Hh |].
          eexists [_], [_]. rewrite Hd, Hc. split_and!; try reflexivity.
          intros w' c' [= _ <-]. split_and!; try reflexivity. now right.
        + apply extract_and_write_Raise in E as (Hs & Hd & Hc). simpl.
          split.
          { rewrite Hs. destruct (_convert_field_vec_comp (self w) fld "z") eqn:E.
            eapply vec_comp_keeps, E. }
          exists [], [Call_convert_field_vec_comp fld "z"].
          rewrite Hd, Hc, app_nil_r. split_and!; try reflexivity.
          * apply prefix_nil.
          * discriminate. }
    simpl. split; [apply same_params_refl |]. exists [], [].
    rewrite !app_nil_r. split_and!; try reflexivity.
    intros w' c' [= _ <-]. split_and!; try reflexivity. exact Hcomp.
  - split; [apply same_params_refl |]. exists [], [].
    rewrite !app_nil_r. split_and!; try reflexivity. discriminate.
  - split; [apply same_params_refl |]. exists [], [].
    rewrite !app_nil_r. split_and!; try reflexivity. discriminate.
Qed.

Lemma per_component_loop_trace istr fmt flds comp (w : World) :
  comp = None \/ comp = Some "z" ->
  let o := per_component_loop istr fmt flds comp w in
  same_params (self w) (self (world_of o)) /\
  exists files cs,
    disk (world_of o) = disk w ++ files /\
    calls (world_of o) = calls w ++ cs /\
    map file_name files `prefix_of`
      flat_map (field_files (ts (self w)) (path (self w)) istr) flds /\
    cs `prefix_of` flat_map (field_calls (ts (self w))) flds /\
    (forall w' c', o = Return w' c' ->
       map file_name files =
         flat_map (field_files (ts (self w)) (path (self w)) istr) flds /\
       cs = flat_map (field_calls (ts (self w))) flds).
Proof.
  revert comp w. induction flds as [|fld flds IH]; intros comp w Hcomp.
  - simpl. split; [apply same_params_refl |]. exists [], [].
    rewrite !app_nil_r. split_and!; try reflexivity. intros; split; reflexivity.
  - cbv zeta. cbn [per_component_loop flat_map]. unfold bind.
    destruct (per_component_body_trace istr fmt fld comp w Hcomp)
      as (Hs & files & cs & Hd & Hc & Hp1 & Hp2 & Hr).
    destruct (per_component_body istr fmt fld comp w) as [w1 c1|w1 e] eqn:E.
    + destruct (Hr _ _ eq_refl) as (Hf & Hcs & Hc1). simpl in Hs, Hd, Hc.
      destruct (IH c1 w1 Hc1) as (Hs1 & files1 & cs1 & Hd1 & Hc1' & Hq1 & Hq2 & Hr1).
      assert (path (self w1) = path (self w)) as Hpath by apply Hs.
      assert (ts (self w1) = ts (self w)) as Hts by apply Hs.
      rewrite Hpath, Hts in *.
      split; [eapply same_params_trans; eassumption |].
      exists (files ++ files1), (cs ++ cs1).
      rewrite Hd1, Hd, Hc1', Hc, !app_assoc, map_app, Hf, Hcs.
      split_and!; try reflexivity.
      * apply prefix_app, Hq1.
      * apply prefix_app, Hq2.
      * intros w' c' H. destruct (Hr1 _ _ H) as (-> & ->). split; reflexivity.
    + simpl in *. split; [exact Hs |]. exists files, cs.
      split_and!; try assumption.
      * now apply prefix_app_r.
      * now apply prefix_app_r.
      * discriminate.
Qed.

Lemma common_mesh_body_trace fld (c : list DataSetAttr) (w : World) :
  let o := common_mesh_body fld c w in
  same_params (self w) (self (world_of o)) /\ disk (world_of o) = disk w.
Proof.
  cbv zeta. rewrite common_mesh_body_eq.
  destruct (fields_metadata (ts (self w)) !! fld) as [info|];
    [| split; [apply same_params_refl | reflexivity]].
  destruct (info !! "type") as [ty|];
    [| split; [apply same_params_refl | reflexivity]].
  destruct Hkeeps as (Hfull & Hscl & _).
  destruct (String.eqb ty "vector").
  { unfold bind.
    pose proof (call_generic_world (Call_convert_field_vec_full fld)
                  (fun s => _convert_field_vec_full s fld) w) as Hw.
    destruct (call_generic _ _ w) as [w1 r|w1 e]; simpl in *; subst w1;
      simpl; split; auto. }
  destruct (String.eqb ty "scalar");
    [| split; [apply same_params_refl | reflexivity]].
  unfold bind.
  pose proof (call_generic_world (Call_convert_field_scl fld)
                (fun s => _convert_field_scl s fld) w) as Hw.
  destruct (call_generic _ _ w) as [w1 r|w1 e]; simpl in *; subst w1;
    simpl; split; auto.
Qed.

Lemma common_mesh_loop_trace flds (c : list DataSetAttr) (w : World) :
  let o := common_mesh_loop flds c w in
  same_params (self w) (self (world_of o)) /\ disk (world_of o) = disk w.
Proof.
  revert c w. induction flds as [|fld flds IH]; intros c w.
  - split; [apply same_params_refl | reflexivity].
  - cbv zeta. cbn [common_mesh_loop]. unfold bind.
    destruct (common_mesh_body_trace fld c w) as (Hs & Hd).
    destruct (common_mesh_body fld c w) as [w1 c1|w1 e]; simpl in *.
    + destruct (IH c1 w1) as (Hs1 & Hd1). split.
      * eapply same_params_trans; eassumption.
      * congruence.
    + auto.
Qed.


Lemma per_component_loop_missing istr fmt pre fld post comp (w : World) :
  comp = None \/ comp = Some "z" ->
  fields_metadata (ts (self w)) !! fld = None ->
  per_component_loop istr fmt (pre ++ fld :: post) comp w =
  match per_component_loop istr fmt pre comp w with
  | Return w1 _ => Raise w1 (KeyError fld)
  | Raise w1 e => Raise w1 e
  end.
Proof.
  intros Hcomp Hmiss. rewrite per_component_loop_app. unfold bind at 1.
  destruct (per_component_loop_trace istr fmt pre comp w Hcomp) as (Hs & _).
  destruct (per_component_loop istr fmt pre comp w) as [w1 c1|w1 e];
    [| reflexivity].
  cbn [per_component_loop]. unfold bind. rewrite per_component_body_eq.
  simpl in Hs. destruct Hs as (-> & _). now rewrite Hmiss.
Qed.

Lemma common_mesh_loop_missing pre fld post (c : list DataSetAttr) (w : World) :
  fields_metadata (ts (self w)) !! fld = None ->
  common_mesh_loop (pre ++ fld :: post) c w =
  match common_mesh_loop pre c w with
  | Return w1 _ => Raise w1 (KeyError fld)
  | Raise w1 e => Raise w1 e
  end.
Proof.
  intros Hmiss. rewrite common_mesh_loop_app. unfold bind at 1.
  destruct (common_mesh_loop_trace pre c w) as (Hs & _).
  destruct (common_mesh_loop pre c w) as [w1 c1|w1 e]; [| reflexivity].
  cbn [common_mesh_loop]. unfold bind. rewrite common_mesh_body_eq.
  simpl in Hs. destruct Hs as (-> & _). now rewrite Hmiss.
Qed.

Lemma per_component_loop_skip istr fmt pre fld post comp ty (w : World) :
  comp = None \/ comp = Some "z" ->
  declared_type (ts (self w)) fld = Some ty -> ty <> "scalar" -> ty <> "vector" ->
  per_component_loop istr fmt (pre ++ fld :: post) comp w =
  per_component_loop istr fmt (pre ++ post) comp w.
Proof.
  intros Hcomp Hty Hs Hv. rewrite !per_component_loop_app. unfold bind at 1 2.
  destruct (per_component_loop_trace istr fmt pre comp w Hcomp) as (Hp & _).
  destruct (per_component_loop istr fmt pre comp w) as [w1 c1|w1 e];
    [| reflexivity].
  cbn [per_component_loop]. unfold bind. rewrite per_component_body_eq.
  simpl in Hp. destruct Hp as (-> & _).
  apply declared_type_lookup in Hty as (info & -> & ->).
  apply String.eqb_neq in Hs, Hv. now rewrite Hs, Hv.
Qed.

Lemma common_mesh_loop_skip pre fld post (c : list DataSetAttr) ty (w : World) :
  declared_type (ts (self w)) fld = Some ty -> ty <> "scalar" -> ty <> "vector" ->
  common_mesh_loop (pre ++ fld :: post) c w = common_mesh_loop (pre ++ post) c w.
Proof.
  intros Hty Hs Hv. rewrite !common_mesh_loop_app. unfold bind at 1 2.
  destruct (common_mesh_loop_trace pre c w) as (Hp & _).
  destruct (common_mesh_loop pre c w) as [w1 c1|w1 e]; [| reflexivity].
  cbn [common_mesh_loop]. unfold bind. rewrite common_mesh_body_eq.
  simpl in Hp. destruct Hp as (-> & _).
  apply declared_type_lookup in Hty as (info & -> & ->).
  apply String.eqb_neq in Hs, Hv. now rewrite Hs, Hv.
Qed.

(** ** [write_fields_vtk] *)

(** The names that a returning call to [write_fields_vtk] hands to pyvtk,
    in this order: with [CommonMesh] true, the one name [vtk_fields_<istr>];
    with [CommonMesh] false, for each field of the list the three names
    [vtk_fields_<field>x_<istr>], [..y..], [..z..] if it is a vector, the one
    name [vtk_fields_<field>_<istr>] if it is a scalar, and none otherwise.
    The names are prefixed by the output directory and [<istr>] is the
    iteration number padded with zeros to seven characters. *)
Lemma write_fields_vtk_names flds it fmt z nth cm (w w' : World) :
  write_fields_vtk flds it fmt z nth cm w = Return w' tt ->
  map file_name (disk w') =
  map file_name (disk w) ++
  (if cm then [path (self w) +:+ "vtk_fields_" +:+ zero_pad (str it)]
   else flat_map (field_files (ts (self w)) (path (self w)) (zero_pad (str it)))
          (resolve_fields flds w)).
Proof.
  rewrite write_fields_vtk_unfold.
  set (w0 := registered_fields it z cm nth w). destruct cm.
  - unfold bind at 1.
    destruct (common_mesh_loop_trace (resolve_fields flds w) [] w0) as (Hs & Hd).
    destruct (common_mesh_loop _ _ w0) as [w1 c|w1 e]; [| discriminate].
    simpl in Hs, Hd. destruct Hs as (_ & Hpath & _).
    unfold bind, self_grid, getattr, VtkData, self_path, get_self, tofile, ret, raise.
    destruct (grid (self w1)) as [g|]; [| discriminate].
    destruct (VtkData_fault g c); [discriminate |]. cbn.
    destruct (tofile_fault _); [discriminate |].
    intros [= <-]. cbn. rewrite map_app, Hd, Hpath. reflexivity.
  - unfold bind at 1.
    destruct (per_component_loop_trace (zero_pad (str it)) fmt
                (resolve_fields flds w) None w0 (or_introl eq_refl))
      as (Hs & files & cs & Hd & Hc & _ & _ & Hr).
    destruct (per_component_loop _ _ _ _ w0) as [w1 c|w1 e]; [| discriminate].
    intros [= <-]. destruct (Hr _ _ eq_refl) as (Hf & _).
    simpl in Hd. rewrite Hd, map_app, Hf. reflexivity.
Qed.

(** C1. In a call to [write_fields_vtk] with [CommonMesh] false, whatever
    its outcome, the calls into the parent class are all
    [_convert_field_vec_comp]: the scalar extraction [_convert_field_scl] is
    never called. Each call made for a field of scalar type passes ["z"],
    the value the variable [comp] keeps from the last loop over the
    components of a vector field: no call at all is made unless the list
    has a vector field. And when the call returns, every field of scalar
    type in the list was extracted that way. *)
Theorem scalar_branch_reuses_comp flds it fmt z nth (w : World) :
  let o := write_fields_vtk flds it fmt z nth false w in
  exists cs,
    calls (world_of o) = calls w ++ cs /\
    (forall fld, Call_convert_field_scl fld ∉ cs) /\
    (forall fld comp,
       Call_convert_field_vec_comp fld comp ∈ cs ->
       declared_type (ts (self w)) fld = Some "scalar" -> comp = "z") /\
    (cs <> [] ->
     exists g, g ∈ resolve_fields flds w /\
       declared_type (ts (self w)) g = Some "vector") /\
    (forall w' fld,
       o = Return w' tt -> fld ∈ resolve_fields flds w ->
       declared_type (ts (self w)) fld = Some "scalar" ->
       Call_convert_field_vec_comp fld "z" ∈ cs).
Proof.
  cbv zeta. rewrite write_fields_vtk_unfold.
  set (w0 := registered_fields it z false nth w). unfold bind.
  destruct (per_component_loop_trace (zero_pad (str it)) fmt
              (resolve_fields flds w) None w0 (or_introl eq_refl))
    as (_ & files & cs & _ & Hc & _ & Hp & Hr).
  change (ts (self w0)) with (ts (self w)) in *.
  change (calls w0) with (calls w) in *.
  assert (forall c, c ∈ cs -> exists fld,
            fld ∈ resolve_fields flds w /\ c ∈ field_calls (ts (self w)) fld)
    as Hin.
  { intros c Hc'. destruct Hp as [k Hk].
    assert (c ∈ flat_map (field_calls (ts (self w))) (resolve_fields flds w))
      as H by (rewrite Hk; apply elem_of_app; now left).
    apply list_elem_of_In, in_flat_map in H as (fld & H1 & H2).
    exists fld. split; now apply list_elem_of_In. }
  exists cs. split_and!.
  - destruct (per_component_loop _ _ _ _ w0); exact Hc.
  - intros fld H. apply Hin in H as (f & _ & H).
    apply field_calls_elem in H as (comp & H & _). discriminate.
  - intros fld comp H Hty. apply Hin in H as (f & _ & H).
    apply field_calls_elem in H as (comp' & [= <- <-] & H). now apply H.
  - intros Hne.
    destruct (decide (Exists (fun g => declared_type (ts (self w)) g = Some "vector")
                        (resolve_fields flds w))) as [Hex|Hex].
    + apply Exists_exists in Hex. exact Hex.
    + exfalso. apply Hne.
      pose proof (per_component_loop_no_vector (zero_pad (str it)) fmt
                    (resolve_fields flds w) w0) as Hnone.
      rewrite Hc in Hnone.
      assert (calls w ++ cs = calls w ++ []) as Hcs.
      { rewrite app_nil_r. apply Hnone. intros g Hg Hv. apply Hex.
        apply Exists_exists. eauto. }
      now apply app_inv_head in Hcs.
  - intros w' fld Ho Hfld Hty.
    destruct (per_component_loop _ _ _ _ w0) as [w1 c|w1 e]; [| discriminate].
    destruct (Hr _ _ eq_refl) as (_ & ->).
    apply list_elem_of_In, in_flat_map. exists fld. split.
    + now apply list_elem_of_In.
    + rewrite (field_calls_scalar _ _ Hty). now left.
Qed.

(** C4. A field whose declared type is neither ["scalar"] nor ["vector"] is
    passed over, [CommonMesh] true or false: the call does on the list with
    the field what it does on the list without it. *)
Theorem unknown_type_skipped flds it fmt z nth cm (w : World) pre fld post ty :
  resolve_fields flds w = pre ++ fld :: post ->
  declared_type (ts (self w)) fld = Some ty ->
  ty <> "scalar" -> ty <> "vector" ->
  write_fields_vtk flds it fmt z nth cm w =
  write_fields_vtk (Some (pre ++ post)) it fmt z nth cm w.
Proof.
  intros Hl Hty Hs Hv. rewrite !write_fields_vtk_unfold, Hl. cbn [resolve_fields].
  set (w0 := registered_fields it z cm nth w).
  change (ts (self w)) with (ts (self w0)) in Hty.
  destruct cm; apply bind_congr.
  - now apply (common_mesh_loop_skip pre fld post [] ty w0).
  - apply (per_component_loop_skip _ _ pre fld post None ty w0);
      (assumption || now left).
Qed.

(** C6. A requested field that the metadata of the reader does not know
    aborts the call: the call never returns, and what was on the disk
    before, or was written earlier in the call, stays. When the fields
    before it are processed without an exception, the exception is the
    [KeyError] of the lookup, raised in the very state those fields left:
    with [CommonMesh] true nothing has been written, with [CommonMesh] false
    the files of the earlier fields have. *)
Theorem missing_field_raises_KeyError flds it fmt z nth cm (w : World) pre fld post :
  resolve_fields flds w = pre ++ fld :: post ->
  fields_metadata (ts (self w)) !! fld = None ->
  let o := write_fields_vtk flds it fmt z nth cm w in
  let w0 := registered_fields it z cm nth w in
  let istr := zero_pad (str it) in
  (exists e, o = Raise (world_of o) e) /\
  disk w `prefix_of` disk (world_of o) /\
  (cm = true -> forall w1 c,
     common_mesh_loop pre [] w0 = Return w1 c ->
     o = Raise w1 (KeyError fld) /\ disk w1 = disk w) /\
  (cm = false -> forall w1 c,
     per_component_loop istr fmt pre None w0 = Return w1 c ->
     o = Raise w1 (KeyError fld) /\
     map file_name (disk w1) =
       map file_name (disk w) ++
       flat_map (field_files (ts (self w)) (path (self w)) istr) pre).
Proof.
  intros Hl Hmiss. cbv zeta. rewrite write_fields_vtk_unfold, Hl.
  set (w0 := registered_fields it z cm nth w).
  change (ts (self w)) with (ts (self w0)) in Hmiss.
  destruct cm.
  - match goal with |- context [bind ?m ?k w0] =>
      replace (bind m k w0) with
        (match common_mesh_loop pre [] w0 with
         | Return w1 _ => Raise (A:=unit) w1 (KeyError fld)
         | Raise w1 e => Raise w1 e
         end)
    end.
    2:{ unfold bind at 1.
        rewrite (common_mesh_loop_missing pre fld post [] w0 Hmiss).
        destruct (common_mesh_loop pre [] w0); reflexivity. }
    destruct (common_mesh_loop_trace pre [] w0) as (_ & Hd).
    destruct (common_mesh_loop pre [] w0) as [w1 c1|w1 e]; simpl in Hd |- *;
      (split_and!; [eauto | rewrite Hd; reflexivity | | discriminate]).
    + intros _ w2 c [= <- _]. auto.
    + discriminate.
  - match goal with |- context [bind ?m ?k w0] =>
      replace (bind m k w0) with
        (match per_component_loop (zero_pad (str it)) fmt pre None w0 with
         | Return w1 _ => Raise (A:=unit) w1 (KeyError fld)
         | Raise w1 e => Raise w1 e
         end)
    end.
    2:{ unfold bind at 1.
        rewrite (per_component_loop_missing _ _ pre fld post None w0
                   (or_introl eq_refl) Hmiss).
        destruct (per_component_loop _ _ pre None w0); reflexivity. }
    destruct (per_component_loop_trace (zero_pad (str it)) fmt pre None w0
                (or_introl eq_refl)) as (_ & files & cs & Hd & _ & _ & _ & Hr).
    destruct (per_component_loop _ _ pre None w0) as [w1 c1|w1 e];
      simpl in Hd |- *;
      (split_and!; [eauto | rewrite Hd; now apply prefix_app_r | discriminate |]).
    + intros _ w2 c [= <- _]. split; [reflexivity |].
      destruct (Hr _ _ eq_refl) as (Hf & _). now rewrite Hd, map_app, Hf.
    + discriminate.
Qed.

(** ** [write_species_vtk] *)

Lemma scalars_loop_eq i arrays (acc : list DataSetAttr) names (w : World) :
  scalars (self w) = Some names -> (i <= length names)%nat ->
  scalars_loop i arrays acc w =
  if decide (length arrays + i <= length names)%nat then
    Return w (acc ++ zip_with (species_scalar (dtype (self w))) arrays (drop i names))
  else Raise w IndexError.
Proof.
  intros Hn. revert i acc. induction arrays as [|a arrays IH]; intros i acc Hi.
  - simpl. rewrite decide_True by lia. now rewrite app_nil_r.
  - cbn [scalars_loop].
    unfold self_dtype, self_scalars, getattr, get_self, bind, ret, raise.
    cbv beta iota. rewrite Hn. destruct (names !! i) as [n|] eqn:Ei.
    + apply lookup_lt_Some in Ei as Hlt. rewrite IH by lia.
      cbn [length]. destruct (decide (length arrays + S i <= length names)%nat);
        [rewrite decide_True by lia | rewrite decide_False by lia; reflexivity].
      rewrite (drop_S _ _ _ Ei). cbn [zip_with]. now rewrite <- app_assoc.
    + apply lookup_ge_None in Ei. cbn [length].
      rewrite decide_False by lia. reflexivity.
Qed.

Lemma species_keeps (s s' : Opmd2VTK) specie r :
  _convert_species s specie = (s', r) -> same_params s s'.
Proof.
  intros E. destruct Hkeeps as (_ & _ & _ & H).
  specialize (H s specie). now rewrite E in H.
Qed.

Lemma scalars_loop_world i arrays (acc : list DataSetAttr) (w : World) :
  world_of (scalars_loop i arrays acc w) = w.
Proof.
  revert i acc. induction arrays as [|a arrays IH]; intros i acc; [reflexivity |].
  cbn [scalars_loop].
  unfold self_dtype, self_scalars, getattr, get_self, bind, ret, raise.
  cbv beta iota.
  destruct (scalars (self w)) as [names|]; [| reflexivity].
  destruct (names !! i); [apply IH | reflexivity].
Qed.

Lemma species_body_eq name_base istr fmt specie (w : World) :
  species_body name_base istr fmt specie w =
  let w1 := {| self := fst (_convert_species (self w) specie); disk := disk w;
               calls := calls w ++ [Call_convert_species specie] |} in
  match snd (_convert_species (self w) specie) with
  | Err e => Raise w1 e
  | Ok (points, arrays) =>
      bind (scalars_loop 0 arrays [])
        (fun attrs =>
           data <- VtkData (Some (PolyData points)) attrs ;;
           n <- format_ name_base [specie; istr] ;;
           tofile data n fmt) w1
  end.
Proof.
  unfold species_body. unfold bind at 1. unfold call_generic.
  destruct (_convert_species (self w) specie) as [s' [[points arrays]|e]];
    reflexivity.
Qed.

Lemma species_body_world name_base istr fmt specie (w : World) :
  let o := species_body name_base istr fmt specie w in
  self (world_of o) = fst (_convert_species (self w) specie) /\
  calls (world_of o) = calls w ++ [Call_convert_species specie] /\
  disk w `prefix_of` disk (world_of o).
Proof.
  cbv zeta. rewrite species_body_eq. cbv zeta.
  destruct (_convert_species (self w) specie) as [s' [[points arrays]|e]];
    cbn [fst snd]; [| split_and!; reflexivity].
  set (w1 := Build_World _ _ _).
  match goal with
  | |- context [bind ?m ?k w1] => remember (bind m k w1) as o eqn:Ho
  end.
  unfold bind at 1 in Ho.
  pose proof (scalars_loop_world 0 arrays [] w1) as Hw.
  destruct (scalars_loop 0 arrays [] w1) as [w2 attrs|w2 e]; simpl in Hw; subst w2.
  2:{ subst o. split_and!; reflexivity. }
  unfold bind, VtkData, format_, tofile, ret, raise in Ho.
  destruct (VtkData_fault _ _); [subst o; split_and!; reflexivity |].
  destruct (str_format _ _); [| subst o; split_and!; reflexivity].
  destruct (tofile_fault _); subst o; split_and!; try reflexivity.
  simpl. now apply prefix_app_r.
Qed.

Lemma species_body_Return name_base istr fmt specie (w w' : World) u :
  species_body name_base istr fmt specie w = Return w' u ->
  exists points arrays attrs n,
    _convert_species (self w) specie = (self w', Ok (points, arrays)) /\
    scalars_loop 0 arrays []
      {| self := self w'; disk := disk w;
         calls := calls w ++ [Call_convert_species specie] |} =
      Return {| self := self w'; disk := disk w;
                calls := calls w ++ [Call_convert_species specie] |} attrs /\
    str_format name_base [specie; istr] = Some n /\
    disk w' = disk w ++ [ {| file_name := n; structure := Some (PolyData points);
                             point_data := attrs; file_format := fmt |} ].
Proof.
  rewrite species_body_eq. cbv zeta.
  destruct (_convert_species (self w) specie) as [s' [[points arrays]|e]];
    cbn [fst snd]; [| discriminate].
  set (w1 := Build_World _ _ _). unfold bind at 1.
  pose proof (scalars_loop_world 0 arrays [] w1) as Hw.
  destruct (scalars_loop 0 arrays [] w1) as [w2 attrs|w2 e] eqn:El;
    simpl in Hw; subst w2; [| discriminate].
  unfold bind, VtkData, format_, tofile, ret, raise.
  destruct (VtkData_fault _ _); [discriminate |].
  destruct (str_format _ _) as [n|]; [| discriminate].
  destruct (tofile_fault _); [discriminate |].
  intros [= <-]. exists points, arrays, attrs, n. simpl. auto.
Qed.

Lemma species_loop_keeps name_base istr fmt species (w : World) :
  let o := species_loop name_base istr fmt species w in
  same_params (self w) (self (world_of o)) /\ disk w `prefix_of` disk (world_of o).
Proof.
  revert w. induction species as [|specie species IH]; intros w.
  - split; [apply same_params_refl | reflexivity].
  - cbv zeta. cbn [species_loop]. unfold bind.
    destruct (species_body_world name_base istr fmt specie w) as (Hs & _ & Hd).
    assert (same_params (self w)
              (self (world_of (species_body name_base istr fmt specie w)))) as Hk.
    { rewrite Hs. destruct (_convert_species (self w) specie) eqn:E.
      eapply species_keeps, E. }
    destruct (species_body name_base istr fmt specie w) as [w1 u|w1 e];
      simpl in *; [| auto].
    destruct (IH w1) as (Hs1 & Hd1). split.
    + eapply same_params_trans; eassumption.
    + etrans; eassumption.
Qed.

(** The writes of a returning call to [write_species_vtk]: one for each
    species of the list, in the order of the list, under the name
    [vtk_specie_<species>_<istr>] in the output directory; it holds the
    point cloud of the positions that [_convert_species] returned for the
    species, with one scalar array for each entry of the argument [scalars],
    the i-th array being the i-th array of [_convert_species], cast to the
    converter's dtype, under the i-th name. *)
Lemma write_species_vtk_writes species it fmt names sel z (w w' : World) :
  one_array_per_scalar ->
  write_species_vtk species it fmt names sel z w = Return w' tt ->
  exists dir files,
    (brace_free (path (self w)) = true -> dir = path (self w)) /\
    disk w' = disk w ++ files /\
    Forall2
      (fun specie f =>
         file_name f =
           dir +:+ "vtk_specie_" +:+ specie +:+ "_" +:+ zero_pad (str it) /\
         file_format f = fmt /\
         exists s points arrays,
           snd (_convert_species s specie) = Ok (points, arrays) /\
           structure f = Some (PolyData points) /\
           point_data f =
             zip_with (species_scalar (dtype (self w))) arrays names /\
           map attr_name (point_data f) = names)
      (resolve_species species w) files.
Proof.
  intros Hone. rewrite write_species_vtk_unfold.
  set (w0 := registered_species it z sel names w).
  set (nb := path (self w) +:+ "vtk_specie_{:}_{:}").
  set (istr := zero_pad (str it)).
  generalize (resolve_species species w) as l. intros l Hrun.
  assert (exists dir,
            (brace_free (path (self w)) = true -> dir = path (self w)) /\
            forall specie n, str_format nb [specie; istr] = Some n ->
              n = dir +:+ "vtk_specie_" +:+ specie +:+ "_" +:+ istr)
    as (dir & Hdir & Hfmt).
  { destruct (str_format (path (self w)) []) as [dir|] eqn:Ed.
    - exists dir. split.
      + intros Hb. apply brace_free_format in Hb. congruence.
      + intros specie n Hn. apply format_species in Hn as (d & Hd & ->). congruence.
    - exists (path (self w)). split; [reflexivity |].
      intros specie n Hn. apply format_species in Hn as (d & Hd & _). congruence. }
  enough (exists files,
            disk w' = disk w0 ++ files /\
            Forall2
              (fun specie f =>
                 file_name f = dir +:+ "vtk_specie_" +:+ specie +:+ "_" +:+ istr /\
                 file_format f = fmt /\
                 exists s points arrays,
                   snd (_convert_species s specie) = Ok (points, arrays) /\
                   structure f = Some (PolyData points) /\
                   point_data f =
                     zip_with (species_scalar (dtype (self w0))) arrays names /\
                   map attr_name (point_data f) = names) l files)
    as (files & Hd & Hall) by (exists dir, files; auto).
  assert (scalars (self w0) = Some names) as Hnames by reflexivity.
  clearbody w0. clear Hdir. revert w0 Hrun Hnames.
  induction l as [|specie l IH]; intros w0 Hrun Hnames.
  - injection Hrun as <-. exists []. rewrite app_nil_r. split; [reflexivity | constructor].
  - cbn [species_loop] in Hrun. unfold bind in Hrun.
    destruct (species_body nb istr fmt specie w0) as [w1 u|w1 e] eqn:Eb;
      [| discriminate].
    apply species_body_Return in Eb
      as (points & arrays & attrs & n & Hcall & Hloop & Hn & Hd).
    pose proof (species_keeps _ _ _ _ Hcall) as Hk.
    assert (scalars (self w1) = Some names) as Hnames1.
    { destruct Hk as (_ & _ & _ & _ & _ & _ & _ & _ & ->). exact Hnames. }
    assert (dtype (self w1) = dtype (self w0)) as Hdt by apply Hk.
    destruct (IH w1 Hrun Hnames1) as (files & Hd1 & Hall).
    rewrite Hdt in Hall.
    eexists (_ :: files). split; [rewrite Hd1, Hd, <- app_assoc; reflexivity |].
    constructor; [| exact Hall]. cbn.
    assert (length arrays = length names) as Hlen.
    { apply (Hone (self w0) specie points arrays names Hnames).
      now rewrite Hcall. }
    rewrite (scalars_loop_eq 0 arrays [] names) in Hloop
      by (exact Hnames1 || (simpl; lia)).
    rewrite decide_True in Hloop by lia. injection Hloop as <-.
    cbn [self drop app]. rewrite Hdt.
    split_and!; [now apply Hfmt | reflexivity |].
    exists (self w0), points, arrays. rewrite Hcall. split_and!; try reflexivity.
    clear -Hlen. revert names Hlen.
    induction arrays as [|a arrays IH]; intros [|n names] Hlen;
      try discriminate; [reflexivity |].
    cbn. f_equal. apply IH. now injection Hlen.
Qed.

(** ** The mesh and the registered parameters *)

Lemma write_fields_vtk_keeps flds it fmt z nth cm (w : World) :
  same_params (self (registered_fields it z cm nth w))
    (self (world_of (write_fields_vtk flds it fmt z nth cm w))).
Proof.
  rewrite write_fields_vtk_unfold. set (w0 := registered_fields it z cm nth w).
  destruct cm; unfold bind at 1.
  - destruct (common_mesh_loop_trace (resolve_fields flds w) [] w0) as (Hs & _).
    destruct (common_mesh_loop _ _ w0) as [w1 c|w1 e]; [| exact Hs].
    destruct (common_mesh_write c ("vtk_fields_" +:+ zero_pad (str it)) fmt w1)
      as (Hw & _).
    cbv zeta in Hw. rewrite Hw. exact Hs.
  - destruct (per_component_loop_trace (zero_pad (str it)) fmt
                (resolve_fields flds w) None w0 (or_introl eq_refl)) as (Hs & _).
    destruct (per_component_loop _ _ _ _ w0); exact Hs.
Qed.

Lemma write_species_vtk_keeps species it fmt names sel z (w : World) :
  same_params (self (registered_species it z sel names w))
    (self (world_of (write_species_vtk species it fmt names sel z w))).
Proof. rewrite write_species_vtk_unfold. apply species_loop_keeps. Qed.

(** C10. [write_fields_vtk] assigns [iteration], [zmin_fixed], [CommonMesh]
    and [Nth] from its arguments and resets [grid]: the values these five
    attributes had before do not matter to the call, and the four parameters
    are still on the instance when the call ends, by a return or by an
    exception. [write_species_vtk] does the same with [iteration],
    [zmin_fixed], [select] and [scalars]. Neither method touches the
    parameters of the other, so each call finds the values the previous
    calls left. *)
Theorem params_persist :
  (forall flds it fmt z nth cm (w : World),
     let o := write_fields_vtk flds it fmt z nth cm w in
     let s' := self (world_of o) in
     (iteration s' = Some it /\ zmin_fixed s' = Some z /\
      CommonMesh s' = Some cm /\ Nth s' = Some nth) /\
     (select s' = select (self w) /\ scalars s' = scalars (self w)) /\
     (forall w2, differ_in_fields_params w w2 ->
        write_fields_vtk flds it fmt z nth cm w2 = o)) /\
  (forall species it fmt names sel z (w : World),
     let o := write_species_vtk species it fmt names sel z w in
     let s' := self (world_of o) in
     (iteration s' = Some it /\ zmin_fixed s' = Some z /\
      select s' = Some sel /\ scalars s' = Some names) /\
     (CommonMesh s' = CommonMesh (self w) /\ Nth s' = Nth (self w)) /\
     (forall w2, differ_in_species_params w w2 ->
        write_species_vtk species it fmt names sel z w2 = o)).
Proof.
  split.
  - intros flds it fmt z nth cm w. cbv zeta.
    destruct (write_fields_vtk_keeps flds it fmt z nth cm w)
      as (_ & _ & _ & -> & -> & -> & -> & -> & ->).
    split_and!; try reflexivity. intros w2. apply write_fields_vtk_overwrites.
  - intros species it fmt names sel z w. cbv zeta.
    destruct (write_species_vtk_keeps species it fmt names sel z w)
      as (_ & _ & _ & -> & -> & -> & -> & -> & ->).
    split_and!; try reflexivity. intros w2. apply write_species_vtk_overwrites.
Qed.

End Traces.

(** * Further properties *)

(** ** The iteration string beyond seven digits and below zero *)

(** A number from [10 ^ k] on has more than [k] digits. *)
Lemma length_digits_of_lower (k : nat) (n : N) :
  (10 ^ N.of_nat k <= n)%N -> (k < String.length (digits_of n))%nat.
Proof.
  revert n. induction k as [|k IH]; intros n Hn.
  - destruct (decide (n < 10)%N) as [Hs|Hs].
    + rewrite digits_of_small by exact Hs. simpl. lia.
    + rewrite digits_of_big by lia. rewrite length_append. simpl. lia.
  - assert (10 <= n)%N as Hbig.
    { replace (N.of_nat (S k)) with (N.succ (N.of_nat k)) in Hn by lia.
      rewrite N.pow_succ_r' in Hn.
      assert (1 <= 10 ^ N.of_nat k)%N by (apply N.lt_pred_le, N.neq_0_lt_0, N.pow_nonzero; lia).
      nia. }
    rewrite digits_of_big by exact Hbig. rewrite length_append. simpl.
    assert (10 ^ N.of_nat k <= n / 10)%N as Hq.
    { apply N.div_le_lower_bound; [lia |].
      replace (N.of_nat (S k)) with (N.succ (N.of_nat k)) in Hn by lia.
      now rewrite N.pow_succ_r' in Hn. }
    specialize (IH _ Hq). lia.
Qed.

(** A string that had to be padded starts with a zero. *)
Lemma zero_pad_head (s : string) :
  (String.length s < 7)%nat -> exists t, zero_pad s = String "0" t.
Proof.
  remember (7 - String.length s)%nat as k eqn:Hk.
  revert s Hk. induction k as [|k IH]; intros s Hk Hs; [lia |].
  rewrite zero_pad_short by exact Hs.
  destruct (decide (String.length (String "0" s) < 7)%nat) as [Hs'|Hs'].
  - apply IH; [simpl in *; lia | exact Hs'].
  - rewrite zero_pad_long by lia. eauto.
Qed.

Lemma length_zero_pad_ge (s : string) : (7 <= String.length (zero_pad s))%nat.
Proof.
  destruct (decide (String.length s <= 7)%nat) as [Hs|Hs].
  - rewrite length_zero_pad by exact Hs. lia.
  - rewrite zero_pad_long by lia. lia.
Qed.

Lemma int_zero_pad_str (i : Z) : (0 <= i)%Z -> int (zero_pad (str i)) = Some i.
Proof.
  intros Hi. unfold str.
  replace (i <? 0)%Z with false by (symmetry; apply Z.ltb_ge; lia).
  rewrite (int_digits _ (Z.to_N i)).
  - f_equal. lia.
  - apply zero_pad_nonempty.
  - rewrite parse_zero_pad. apply parse_digits_of.
Qed.

(** X1. For every iteration number that is not negative the string both
    methods build reads back as the number and has at least seven
    characters; from 10000000 on nothing is padded or cut: the string is
    [str(iteration)], longer than seven characters. *)
Theorem iteration_suffix_unbounded (i : Z) `{F : Foreign} (w : World) :
  iteration (self w) = Some i ->
  (0 <= i)%Z ->
  exists istr,
    make_istr w = Return w istr /\
    int istr = Some i /\
    (7 <= String.length istr)%nat /\
    ((10000000 <= i)%Z -> istr = str i /\ (7 < String.length istr)%nat).
Proof.
  intros Hw Hi. exists (zero_pad (str i)). split_and!.
  - unfold make_istr, self_iteration, getattr, bind. now rewrite Hw.
  - now apply int_zero_pad_str.
  - apply length_zero_pad_ge.
  - intros Hbig.
    assert (7 < String.length (str i))%nat as Hlen.
    { unfold str.
      replace (i <? 0)%Z with false by (symmetry; apply Z.ltb_ge; lia).
      apply length_digits_of_lower.
      change (10 ^ N.of_nat 7)%N with 10000000%N. lia. }
    rewrite zero_pad_long by lia. split; [reflexivity | exact Hlen].
Qed.

(** X2. For a negative iteration number of up to five digits the zeros are
    put before the sign: the string has seven characters and [int] does not
    read it. *)
Theorem iteration_suffix_negative (i : Z) `{F : Foreign} (w : World) :
  iteration (self w) = Some i ->
  (-99999 <= i < 0)%Z ->
  exists istr,
    make_istr w = Return w istr /\
    String.length istr = 7%nat /\
    int istr = None.
Proof.
  intros Hw Hi. exists (zero_pad (str i)).
  assert (str i = String "-" (digits_of (Z.to_N (- i)))) as Hstr.
  { unfold str. now replace (i <? 0)%Z with true by (symmetry; apply Z.ltb_lt; lia). }
  assert (String.length (str i) <= 6)%nat as Hlen.
  { rewrite Hstr. simpl.
    pose proof (length_digits_of 4 (Z.to_N (- i))) as H.
    change (10 ^ N.of_nat 5)%N with 100000%N in H. specialize (H ltac:(lia)). lia. }
  split_and!.
  - unfold make_istr, self_iteration, getattr, bind. now rewrite Hw.
  - apply length_zero_pad. lia.
  - destruct (zero_pad_head (str i)) as (t & Ht); [lia |].
    pose proof (parse_zero_pad (str i)) as Hp. rewrite Ht in Hp |- *.
    rewrite Hstr in Hp. unfold int.
    change (Ascii.eqb "0" "-") with false. change (Ascii.eqb "0" "+") with false.
    cbv iota. rewrite Hp. reflexivity.
Qed.

(** ** More on [write_fields_vtk] *)

Section MoreFields.
Context `{F : Foreign} {G : opmd2VTKGeneric} {V : PyVTK}.

(** What a returning call has done, [CommonMesh] true. *)
Lemma common_mesh_Return flds it fmt z nth (w w' : World) :
  write_fields_vtk flds it fmt z nth true w = Return w' tt ->
  exists w1 c g,
    common_mesh_loop (resolve_fields flds w) []
      (registered_fields it z true nth w) = Return w1 c /\
    grid (self w1) = Some g /\
    self w' = self w1 /\ calls w' = calls w1 /\
    disk w' = disk w ++
      [ {| file_name := path (self w1) +:+ "vtk_fields_" +:+ zero_pad (str it);
           structure := g; point_data := c; file_format := fmt |} ].
Proof.
  rewrite write_fields_vtk_unfold. set (w0 := registered_fields it z true nth w).
  unfold bind at 1.
  pose proof (common_mesh_loop_disk (resolve_fields flds w) [] w0) as Hd.
  destruct (common_mesh_loop _ _ w0) as [w1 c|w1 e]; [| discriminate].
  cbn [world_of] in Hd. change (disk w0) with (disk w) in Hd.
  unfold self_grid, getattr, VtkData, self_path, get_self, tofile, bind, ret, raise.
  cbv beta iota.
  destruct (grid (self w1)) as [g|] eqn:Eg; [| discriminate].
  destruct (VtkData_fault g c); [discriminate |]. cbn.
  destruct (tofile_fault _); [discriminate |].
  intros [= <-]. exists w1, c, g. cbn. rewrite Hd. split_and!; auto.
Qed.


Lemma untyped_lookup (t : TimeSeries) fld :
  untyped t fld ->
  exists info ty,
    fields_metadata t !! fld = Some info /\ info !! "type" = Some ty /\
    String.eqb ty "vector" = false /\ String.eqb ty "scalar" = false.
Proof.
  intros (ty & Hty & Hs & Hv).
  apply declared_type_lookup in Hty as (info & H1 & H2).
  exists info, ty. split_and!; try assumption; now apply String.eqb_neq.
Qed.

Lemma common_mesh_loop_untyped flds (c : list DataSetAttr) (w : World) :
  Forall (untyped (ts (self w))) flds ->
  common_mesh_loop flds c w = Return w c.
Proof.
  induction 1 as [|fld flds Hfld _ IH]; [reflexivity |].
  cbn [common_mesh_loop]. unfold bind. rewrite common_mesh_body_eq.
  apply untyped_lookup in Hfld as (info & ty & -> & -> & -> & ->). exact IH.
Qed.

Lemma per_component_loop_untyped istr fmt flds comp (w : World) :
  Forall (untyped (ts (self w))) flds ->
  per_component_loop istr fmt flds comp w = Return w comp.
Proof.
  induction 1 as [|fld flds Hfld _ IH]; [reflexivity |].
  cbn [per_component_loop]. unfold bind. rewrite per_component_body_eq.
  apply untyped_lookup in Hfld as (info & ty & -> & -> & -> & ->). exact IH.
Qed.

(** X5. When no field of the list is a scalar or a vector (the empty list,
    or fields of other declared types only) no converter is called and the
    mesh stays [None]. With [CommonMesh] false the call returns and has
    written nothing; with [CommonMesh] true it still asks pyvtk for a file,
    with [None] for the mesh and no array. *)
Theorem no_field_of_known_type flds it fmt z nth cm (w : World) :
  Forall (untyped (ts (self w))) (resolve_fields flds w) ->
  let w0 := registered_fields it z cm nth w in
  let f := {| file_name := path (self w) +:+ "vtk_fields_" +:+ zero_pad (str it);
              structure := None; point_data := []; file_format := fmt |} in
  write_fields_vtk flds it fmt z nth cm w =
  if cm then
    match VtkData_fault None [] with
    | Some e => Raise w0 e
    | None =>
        match tofile_fault f with
        | Some e => Raise w0 e
        | None =>
            Return {| self := self w0; disk := disk w ++ [f]; calls := calls w |} tt
        end
    end
  else Return w0 tt.
Proof.
  intros Hall. cbv zeta. rewrite write_fields_vtk_unfold.
  set (w0 := registered_fields it z cm nth w).
  change (ts (self w)) with (ts (self w0)) in Hall.
  destruct cm; unfold bind at 1.
  - rewrite (common_mesh_loop_untyped _ [] w0 Hall).
    unfold self_grid, getattr, VtkData, self_path, get_self, tofile, bind, ret, raise.
    cbn. destruct (VtkData_fault None []); [reflexivity |]. cbn.
    destruct (tofile_fault _); reflexivity.
  - rewrite (per_component_loop_untyped _ _ _ None w0 Hall). reflexivity.
Qed.

(** The files of the branch [CommonMesh] false, whatever the outcome. *)
Lemma extract_and_write_files fld comp name fmt (w : World) :
  let o := extract_and_write fld comp name fmt w in
  exists files cs,
    disk (world_of o) = disk w ++ files /\
    calls (world_of o) = calls w ++ cs /\
    Forall (component_file fmt) files.
Proof.
  cbv zeta. destruct (extract_and_write fld comp name fmt w) as [w1 u|w1 e] eqn:E.
  - apply extract_and_write_Return in E as (fd & fn & g & _ & _ & Hd & Hc).
    eexists [_], [_]. split_and!; [exact Hd | exact Hc |].
    repeat constructor. cbn. eauto.
  - apply extract_and_write_Raise in E as (_ & Hd & Hc).
    eexists [], [_]. rewrite app_nil_r. split_and!; [exact Hd | exact Hc | constructor].
Qed.

Lemma comps_loop_files istr fmt fld comps comp (w : World) :
  let o := comps_loop istr fmt fld comps comp w in
  exists files cs,
    disk (world_of o) = disk w ++ files /\
    calls (world_of o) = calls w ++ cs /\
    Forall (component_file fmt) files.
Proof.
  revert comp w. induction comps as [|c comps IH]; intros comp w.
  - exists [], []. rewrite !app_nil_r. split_and!; [reflexivity .. | constructor].
  - cbv zeta. rewrite comps_loop_cons. unfold bind.
    destruct (extract_and_write_files fld c
                (path (self w) +:+ "vtk_fields_" +:+ (fld +:+ c) +:+ "_" +:+ istr)
                fmt w) as (files & cs & Hd & Hc & Hall).
    destruct (extract_and_write _ _ _ _ w) as [w1 u|w1 e]; cbn [world_of] in *.
    + destruct (IH (Some c) w1) as (files1 & cs1 & Hd1 & Hc1 & Hall1).
      exists (files ++ files1), (cs ++ cs1).
      rewrite Hd1, Hd, Hc1, Hc, !app_assoc. split_and!; try reflexivity.
      now apply Forall_app.
    + exists files, cs. auto.
Qed.

Lemma per_component_loop_files istr fmt flds comp (w : World) :
  let o := per_component_loop istr fmt flds comp w in
  exists files cs,
    disk (world_of o) = disk w ++ files /\
    calls (world_of o) = calls w ++ cs /\
    Forall (component_file fmt) files.
Proof.
  revert comp w. induction flds as [|fld flds IH]; intros comp w.
  - exists [], []. rewrite !app_nil_r. split_and!; [reflexivity .. | constructor].
  - cbv zeta. cbn [per_component_loop]. unfold bind.
    assert (exists files cs,
              disk (world_of (per_component_body istr fmt fld comp w)) =
                disk w ++ files /\
              calls (world_of (per_component_body istr fmt fld comp w)) =
                calls w ++ cs /\
              Forall (component_file fmt) files) as (files & cs & Hd & Hc & Hall).
    { rewrite per_component_body_eq.
      assert (exists (files : list VtkFile) (cs : list Call),
                disk w = disk w ++ files /\ calls w = calls w ++ cs /\
                Forall (component_file fmt) files) as Hsame
        by (exists [], []; rewrite !app_nil_r; auto).
      destruct (fields_metadata (ts (self w)) !! fld) as [info|]; [| exact Hsame].
      destruct (info !! "type") as [ty|]; [| exact Hsame].
      destruct (String.eqb ty "vector"); [apply comps_loop_files |].
      destruct (String.eqb ty "scalar"); [| exact Hsame].
      destruct comp as [c|]; [| exact Hsame].
      unfold bind.
      destruct (extract_and_write_files fld c
                  (path (self w) +:+ "vtk_fields_" +:+ fld +:+ "_" +:+ istr)
                  fmt w) as (files & cs & Hd & Hc & Hall).
      destruct (extract_and_write _ _ _ _ w); exists files, cs; auto. }
    destruct (per_component_body istr fmt fld comp w) as [w1 c1|w1 e];
      cbn [world_of] in *.
    + destruct (IH c1 w1) as (files1 & cs1 & Hd1 & Hc1 & Hall1).
      exists (files ++ files1), (cs ++ cs1).
      rewrite Hd1, Hd, Hc1, Hc, !app_assoc. split_and!; try reflexivity.
      now apply Forall_app.
    + exists files, cs. auto.
Qed.

(** The writes of the branch [CommonMesh] false, whatever the outcome of
    the call: each holds exactly one array, a [Scalars], in the format asked
    for. *)
Lemma per_component_writes_shape flds it fmt z nth (w : World) :
  let o := write_fields_vtk flds it fmt z nth false w in
  exists files cs,
    disk (world_of o) = disk w ++ files /\
    calls (world_of o) = calls w ++ cs /\
    Forall (component_file fmt) files.
Proof.
  cbv zeta. rewrite write_fields_vtk_unfold.
  set (w0 := registered_fields it z false nth w). unfold bind.
  destruct (per_component_loop_files (zero_pad (str it)) fmt
              (resolve_fields flds w) None w0) as (files & cs & Hd & Hc & Hall).
  exists files, cs.
  destruct (per_component_loop _ _ _ _ w0); cbn [world_of] in *; auto.
Qed.


End MoreFields.

Section FieldExceptions.
Context `{F : Foreign} {G : opmd2VTKGeneric} {V : PyVTK}.

Lemma fields_exn_here fld flds e : fields_exn [fld] e -> fields_exn (fld :: flds) e.
Proof.
  intros [(k & -> & [Hk | ->]) | H]; [left | left | right; exact H].
  - exists k. split; [reflexivity |]. left.
    apply list_elem_of_singleton in Hk as ->. now left.
  - exists "type". auto.
Qed.

Lemma fields_exn_later fld flds e : fields_exn flds e -> fields_exn (fld :: flds) e.
Proof.
  intros [(k & -> & [Hk | ->]) | H]; [left | left | right; exact H].
  - exists k. split; [reflexivity |]. left. now right.
  - exists "type". auto.
Qed.

Lemma foreign_fields_exn flds e :
  e = AttributeError "grid" \/ raised_by_converter e \/ raised_by_pyvtk e ->
  fields_exn flds e.
Proof. unfold fields_exn. tauto. Qed.

Lemma extract_and_write_exn fld comp name fmt (w w' : World) e :
  extract_and_write fld comp name fmt w = Raise w' e ->
  e = AttributeError "grid" \/ raised_by_converter e \/ raised_by_pyvtk e.
Proof.
  unfold extract_and_write, bind, call_generic, self_grid, getattr, VtkData,
    tofile, ret, raise.
  destruct (_convert_field_vec_comp (self w) fld comp) as [s' [[fdata fname]|e']] eqn:E;
    simpl.
  2:{ intros [= _ <-]. right. left. right. right.
      exists (self w), fld, comp. now rewrite E. }
  destruct (grid s') as [g|]; [| intros [= _ <-]; now left].
  destruct (VtkData_fault g _) eqn:Ev.
  { intros [= _ <-]. right. right. left. eauto. }
  simpl. destruct (tofile_fault _) eqn:Et; [| discriminate].
  intros [= _ <-]. right. right. right. eauto.
Qed.

Lemma comps_loop_exn istr fmt fld comps comp (w w' : World) e :
  comps_loop istr fmt fld comps comp w = Raise w' e ->
  e = AttributeError "grid" \/ raised_by_converter e \/ raised_by_pyvtk e.
Proof.
  revert comp w. induction comps as [|c comps IH]; intros comp w; [discriminate |].
  rewrite comps_loop_cons. unfold bind.
  destruct (extract_and_write _ _ _ _ w) as [w1 u|w1 e1] eqn:E.
  - apply IH.
  - intros [= _ <-]. eapply extract_and_write_exn, E.
Qed.

Lemma per_component_loop_exn istr fmt flds comp (w w' : World) e :
  per_component_loop istr fmt flds comp w = Raise w' e -> fields_exn flds e.
Proof.
  revert comp w. induction flds as [|fld flds IH]; intros comp w; [discriminate |].
  cbn [per_component_loop]. unfold bind.
  destruct (per_component_body istr fmt fld comp w) as [w1 c1|w1 e1] eqn:E.
  - intros H. eapply fields_exn_later, IH, H.
  - intros [= _ <-]. apply fields_exn_here.
    rewrite per_component_body_eq in E.
    destruct (fields_metadata (ts (self w)) !! fld) as [info|].
    2:{ injection E as _ <-. left. exists fld. split; [reflexivity |]. left. now left. }
    destruct (info !! "type") as [ty|].
    2:{ injection E as _ <-. left. exists "type". auto. }
    destruct (String.eqb ty "vector").
    { apply foreign_fields_exn. eapply comps_loop_exn, E. }
    destruct (String.eqb ty "scalar"); [| discriminate].
    destruct comp as [c|].
    2:{ injection E as _ <-. right. now left. }
    unfold bind in E.
    destruct (extract_and_write _ _ _ _ w) as [w2 u|w2 e2] eqn:E2; [discriminate |].
    injection E as _ <-. apply foreign_fields_exn. eapply extract_and_write_exn, E2.
Qed.

Lemma common_mesh_loop_exn flds (c : list DataSetAttr) (w w' : World) e :
  common_mesh_loop flds c w = Raise w' e -> fields_exn flds e.
Proof.
  revert c w. induction flds as [|fld flds IH]; intros c w; [discriminate |].
  cbn [common_mesh_loop]. unfold bind.
  destruct (common_mesh_body fld c w) as [w1 c1|w1 e1] eqn:E.
  - intros H. eapply fields_exn_later, IH, H.
  - intros [= _ <-]. apply fields_exn_here.
    rewrite common_mesh_body_eq in E.
    destruct (fields_metadata (ts (self w)) !! fld) as [info|].
    2:{ injection E as _ <-. left. exists fld. split; [reflexivity |]. left. now left. }
    destruct (info !! "type") as [ty|].
    2:{ injection E as _ <-. left. exists "type". auto. }
    destruct (String.eqb ty "vector").
    { unfold bind, call_generic in E.
      destruct (_convert_field_vec_full (self w) fld) as [s' [r|e']] eqn:Ec;
        [discriminate |].
      injection E as _ <-. right. right. right. left. left.
      exists (self w), fld. now rewrite Ec. }
    destruct (String.eqb ty "scalar"); [| discriminate].
    unfold bind, call_generic in E.
    destruct (_convert_field_scl (self w) fld) as [s' [r|e']] eqn:Ec;
      [discriminate |].
    injection E as _ <-. right. right. right. left. right. left.
    exists (self w), fld. now rewrite Ec.
Qed.

(** X7. [write_fields_vtk] raises nothing of its own making except the
    [KeyError] of a metadata lookup (for a requested field, or for the key
    ['type']) and the [UnboundLocalError] of [comp]; any other exception of
    a call is one that a field converter or pyvtk raised, passed on as it
    is, or the [AttributeError] of a converter having removed [grid]. *)
Theorem write_fields_vtk_exceptions flds it fmt z nth cm (w w' : World) e :
  write_fields_vtk flds it fmt z nth cm w = Raise w' e ->
  fields_exn (resolve_fields flds w) e.
Proof.
  rewrite write_fields_vtk_unfold. set (w0 := registered_fields it z cm nth w).
  destruct cm; unfold bind at 1.
  - destruct (common_mesh_loop _ _ w0) as [w1 c|w1 e1] eqn:E.
    + unfold self_grid, getattr, VtkData, self_path, get_self, tofile, bind, ret, raise.
      cbv beta iota.
      destruct (grid (self w1)) as [g|]; [| intros [= _ <-]; right; right; now left].
      destruct (VtkData_fault g c) eqn:Ev.
      { intros [= _ <-]. right. right. right. right. left. eauto. }
      cbn. destruct (tofile_fault _) eqn:Et; [| discriminate].
      intros [= _ <-]. right. right. right. right. right. eauto.
    + intros [= _ <-]. eapply common_mesh_loop_exn, E.
  - destruct (per_component_loop _ _ _ _ w0) as [w1 c|w1 e1] eqn:E; [discriminate |].
    intros [= _ <-]. eapply per_component_loop_exn, E.
Qed.

End FieldExceptions.

Section MoreTraces.
Context `{F : Foreign} {G : opmd2VTKGeneric} {V : PyVTK}.
Hypothesis Hkeeps : keeps_params.

(** X8. With [CommonMesh] false a call that raises leaves a beginning of
    the output of a complete call: whatever the outcome, the names of the
    files written, in order, are an initial segment of the names a returning
    call writes for the list. *)
Theorem per_component_partial_output flds it fmt z nth (w : World) :
  let o := write_fields_vtk flds it fmt z nth false w in
  exists files,
    disk (world_of o) = disk w ++ files /\
    map file_name files `prefix_of`
      flat_map (field_files (ts (self w)) (path (self w)) (zero_pad (str it)))
        (resolve_fields flds w).
Proof.
  cbv zeta. rewrite write_fields_vtk_unfold.
  set (w0 := registered_fields it z false nth w). unfold bind.
  destruct (per_component_loop_trace Hkeeps (zero_pad (str it)) fmt
              (resolve_fields flds w) None w0 (or_introl eq_refl))
    as (_ & files & cs & Hd & _ & Hp & _).
  exists files. split; [| exact Hp].
  destruct (per_component_loop _ _ _ _ w0); exact Hd.
Qed.

Lemma common_mesh_loop_contents flds (c : list DataSetAttr) (w w1 : World) c1 :
  common_mesh_loop flds c w = Return w1 c1 ->
  same_params (self w) (self w1) /\
  map is_Vectors c1 = map is_Vectors c ++ flat_map (field_kinds (ts (self w))) flds /\
  calls w1 = calls w ++ flat_map (common_calls (ts (self w))) flds.
Proof.
  revert c w. induction flds as [|fld flds IH]; intros c w.
  - intros [= <- <-]. rewrite !app_nil_r.
    split_and!; [apply same_params_refl | reflexivity ..].
  - cbn [common_mesh_loop flat_map]. unfold bind.
    destruct (common_mesh_body_trace Hkeeps fld c w) as (Hs & _).
    destruct (common_mesh_body fld c w) as [w2 c2|w2 e] eqn:E; [| discriminate].
    cbn [world_of] in Hs. intros Hrun.
    destruct (IH _ _ Hrun) as (Hs1 & Hk & Hc).
    assert (ts (self w2) = ts (self w)) as Hts by apply Hs.
    rewrite Hts in Hk, Hc.
    assert (map is_Vectors c2 = map is_Vectors c ++ field_kinds (ts (self w)) fld /\
            calls w2 = calls w ++ common_calls (ts (self w)) fld) as (Hk2 & Hc2).
    { rewrite common_mesh_body_eq in E.
      unfold field_kinds, common_calls, declared_type.
      destruct (fields_metadata (ts (self w)) !! fld) as [info|]; [| discriminate].
      cbn [mbind option_bind].
      destruct (info !! "type") as [ty|]; [| discriminate].
      destruct (String.eqb ty "vector").
      { unfold bind, call_generic, ret in E.
        destruct (_convert_field_vec_full (self w) fld) as [s' [r|e']];
          [| discriminate].
        injection E as <- <-. cbn. now rewrite map_app. }
      destruct (String.eqb ty "scalar").
      { unfold bind, call_generic, ret in E.
        destruct (_convert_field_scl (self w) fld) as [s' [r|e']];
          [| discriminate].
        injection E as <- <-. cbn. now rewrite map_app. }
      injection E as <- <-. now rewrite !app_nil_r. }
    split_and!.
    + eapply same_params_trans; eassumption.
    + now rewrite Hk, Hk2, <- app_assoc.
    + now rewrite Hc, Hc2, <- app_assoc.
Qed.

Lemma common_mesh_body_converted fld (c : list DataSetAttr) (w w2 : World) c2 :
  common_mesh_body fld c w = Return w2 c2 ->
  exists new,
    c2 = c ++ new /\
    Forall2 (converted (ts (self w)))
      (List.filter (has_known_type (ts (self w))) [fld]) new.
Proof.
  rewrite common_mesh_body_eq. cbn [List.filter].
  assert (forall a ty, declared_type (ts (self w)) fld = Some ty ->
            (if String.eqb ty "vector" then
               exists s fdata fname,
                 snd (_convert_field_vec_full s fld) = Ok (fdata, fname) /\
                 a = Vectors fdata fname
             else if String.eqb ty "scalar" then
               exists s fdata fname,
                 snd (_convert_field_scl s fld) = Ok (fdata, fname) /\
                 a = Scalars fdata fname
             else False) ->
            converted (ts (self w)) fld a) as Hconv.
  { intros a ty Hty H. unfold converted. now rewrite Hty. }
  unfold has_known_type. revert Hconv. unfold declared_type.
  destruct (fields_metadata (ts (self w)) !! fld) as [info|]; [| discriminate].
  cbn [mbind option_bind].
  destruct (info !! "type") as [ty|]; [| discriminate].
  intros Hconv. specialize (fun a => Hconv a ty eq_refl).
  destruct (String.eqb ty "vector") eqn:Ev.
  { unfold bind, call_generic, ret.
    destruct (_convert_field_vec_full (self w) fld) as [s' [[fdata fname]|e']] eqn:Ec;
      [| discriminate].
    intros [= <- <-]. eexists [_]. split; [reflexivity |].
    cbn [orb]. constructor; [| constructor].
    apply Hconv. exists (self w), fdata, fname. rewrite Ec. auto. }
  destruct (String.eqb ty "scalar") eqn:Es.
  { unfold bind, call_generic, ret.
    destruct (_convert_field_scl (self w) fld) as [s' [[fdata fname]|e']] eqn:Ec;
      [| discriminate].
    intros [= <- <-]. eexists [_]. split; [reflexivity |].
    cbn [orb]. constructor; [| constructor].
    apply Hconv. exists (self w), fdata, fname. rewrite Ec. auto. }
  intros [= <- <-]. exists []. rewrite app_nil_r. split; [reflexivity | constructor].
Qed.

Lemma common_mesh_loop_converted flds (c : list DataSetAttr) (w w1 : World) c1 :
  common_mesh_loop flds c w = Return w1 c1 ->
  exists new,
    c1 = c ++ new /\
    Forall2 (converted (ts (self w)))
      (List.filter (has_known_type (ts (self w))) flds) new.
Proof.
  revert c w. induction flds as [|fld flds IH]; intros c w.
  - intros [= <- <-]. exists []. rewrite app_nil_r. split; [reflexivity | constructor].
  - cbn [common_mesh_loop]. unfold bind.
    destruct (common_mesh_body_trace Hkeeps fld c w) as (Hs & _).
    destruct (common_mesh_body fld c w) as [w2 c2|w2 e] eqn:E; [| discriminate].
    cbn [world_of] in Hs. intros Hrun.
    apply common_mesh_body_converted in E as (new2 & -> & Hall2).
    destruct (IH _ _ Hrun) as (new & -> & Hall).
    assert (ts (self w2) = ts (self w)) as Hts by apply Hs.
    rewrite Hts in Hall.
    exists (new2 ++ new). split; [now rewrite app_assoc |].
    change (fld :: flds) with ([fld] ++ flds). rewrite List.filter_app.
    now apply Forall2_app.
Qed.

(** X9. With [CommonMesh] true a call that returns has made one write, in
    the format asked for. Its arrays are, in the order of the list, one for
    each field of type vector or scalar: for a vector field a [Vectors] of
    the data and under the name that [_convert_field_vec_full] returned for
    the field, for a scalar field a [Scalars] of the data and under the name
    that [_convert_field_scl] returned for it; the converters are called
    once for each such field in that order; the mesh written is what [grid]
    holds when the call ends. *)
Theorem common_mesh_file_contents flds it fmt z nth (w w' : World) :
  write_fields_vtk flds it fmt z nth true w = Return w' tt ->
  exists f,
    disk w' = disk w ++ [f] /\
    file_format f = fmt /\
    grid (self w') = Some (structure f) /\
    Forall2 (converted (ts (self w)))
      (List.filter (has_known_type (ts (self w))) (resolve_fields flds w))
      (point_data f) /\
    map is_Vectors (point_data f) =
      flat_map (field_kinds (ts (self w))) (resolve_fields flds w) /\
    calls w' =
      calls w ++ flat_map (common_calls (ts (self w))) (resolve_fields flds w).
Proof.
  intros Hrun.
  apply common_mesh_Return in Hrun as (w1 & c & g & Hloop & Hg & Hs & Hc & Hd).
  pose proof (common_mesh_loop_converted _ _ _ _ _ Hloop) as (new & Hnew & Hall).
  apply common_mesh_loop_contents in Hloop as (_ & Hk & Hcs).
  eexists. split; [exact Hd |]. cbn [file_format structure point_data].
  split; [reflexivity |]. split; [now rewrite Hs |].
  split; [rewrite Hnew; exact Hall |].
  split; [exact Hk | now rewrite Hc].
Qed.


(** X10. With [CommonMesh] false a scalar field whose name is the name of a
    vector field followed by [x], [y] or [z] is written to the file of that
    component: after a returning call on the vector field and then the
    scalar field, the fourth file written has the name of one of the first
    three. *)
Theorem component_file_collision fld c it fmt z nth (w w' : World) :
  c ∈ ["x"; "y"; "z"] ->
  declared_type (ts (self w)) fld = Some "vector" ->
  declared_type (ts (self w)) (fld +:+ c) = Some "scalar" ->
  write_fields_vtk (Some [fld; fld +:+ c]) it fmt z nth false w = Return w' tt ->
  exists f1 f2 f3 f4,
    disk w' = disk w ++ [f1; f2; f3; f4] /\
    file_name f4 ∈ [file_name f1; file_name f2; file_name f3].
Proof.
  intros Hc Hv Hs. rewrite write_fields_vtk_unfold.
  set (w0 := registered_fields it z false nth w). unfold bind.
  destruct (per_component_loop_trace Hkeeps (zero_pad (str it)) fmt
              [fld; fld +:+ c] None w0 (or_introl eq_refl))
    as (_ & files & cs & Hd & _ & _ & _ & Hr).
  cbn [resolve_fields].
  destruct (per_component_loop _ _ _ _ w0) as [w1 c1|w1 e]; [| discriminate].
  intros [= <-]. destruct (Hr _ _ eq_refl) as (Hn & _). clear Hr.
  change (ts (self w0)) with (ts (self w)) in Hn.
  change (path (self w0)) with (path (self w)) in Hn.
  cbn [flat_map] in Hn. unfold field_files in Hn. rewrite Hv, Hs in Hn.
  cbn in Hn.
  destruct files as [|f1 [|f2 [|f3 [|f4 [|f5 files]]]]]; try discriminate.
  injection Hn as H1 H2 H3 H4.
  exists f1, f2, f3, f4. split; [exact Hd |].
  rewrite H1, H2, H3, H4.
  repeat (apply elem_of_cons in Hc as [->|Hc]); [| | | inversion Hc].
  - now left.
  - right. now left.
  - right. right. now left.
Qed.

End MoreTraces.

(** ** More on [write_species_vtk] and on [_get_mesh_3d] *)

Section MoreSpecies.
Context `{F : Foreign} {G : opmd2VTKGeneric} {V : PyVTK}.



(** X12. A directory name that [str.format] cannot take as it is (a brace
    that is not doubled) makes [write_species_vtk] fail for every species
    list that is not empty: the name of the file is formatted from the
    directory and the template together. *)
Theorem species_path_with_braces species it fmt names sel z (w w' : World) :
  resolve_species species w <> [] ->
  str_format (path (self w)) [] = None ->
  write_species_vtk species it fmt names sel z w <> Return w' tt.
Proof.
  intros Hne Hfmt. rewrite write_species_vtk_unfold.
  destruct (resolve_species species w) as [|specie l]; [contradiction |].
  cbn [species_loop]. unfold bind.
  destruct (species_body _ _ fmt specie _) as [w1 u|w1 e] eqn:E; [| discriminate].
  apply species_body_Return in E as (points & arrays & attrs & n & _ & _ & Hn & _).
  apply format_species in Hn as (dir & Hdir & _). congruence.
Qed.

Section WithKeeps.
Hypothesis Hkeeps : keeps_params.

(** X13. [write_species_vtk] takes the names of the arrays from [scalars] by
    position and does not check that every requested quantity came back:
    in a call that returns, the file of a species holds as many arrays as
    [_convert_species] returned, at most as many as there are names, under
    the first names of [scalars]. *)
Theorem species_arrays_by_position species it fmt names sel z (w w' : World) :
  write_species_vtk species it fmt names sel z w = Return w' tt ->
  exists files,
    disk w' = disk w ++ files /\
    Forall2
      (fun specie f =>
         exists s points arrays,
           snd (_convert_species s specie) = Ok (points, arrays) /\
           (length arrays <= length names)%nat /\
           structure f = Some (PolyData points) /\
           point_data f =
             zip_with (species_scalar (dtype (self w))) arrays names /\
           map attr_name (point_data f) = take (length arrays) names)
      (resolve_species species w) files.
Proof.
  rewrite write_species_vtk_unfold.
  set (w0 := registered_species it z sel names w).
  change (disk w) with (disk w0).
  change (dtype (self w)) with (dtype (self w0)).
  assert (scalars (self w0) = Some names) as Hnames by reflexivity.
  generalize (resolve_species species w) as l.
  generalize (path (self w) +:+ "vtk_specie_{:}_{:}") as nb.
  generalize (zero_pad (str it)) as istr. intros istr nb l.
  clearbody w0. revert w0 Hnames.
  induction l as [|specie l IH]; intros w0 Hnames Hrun.
  - injection Hrun as <-. exists []. rewrite app_nil_r. split; [reflexivity | constructor].
  - cbn [species_loop] in Hrun. unfold bind in Hrun.
    destruct (species_body nb istr fmt specie w0) as [w1 u|w1 e] eqn:Eb;
      [| discriminate].
    apply species_body_Return in Eb
      as (points & arrays & attrs & n & Hcall & Hloop & _ & Hd).
    pose proof (species_keeps Hkeeps _ _ _ _ Hcall) as Hk.
    assert (scalars (self w1) = Some names) as Hnames1.
    { destruct Hk as (_ & _ & _ & _ & _ & _ & _ & _ & ->). exact Hnames. }
    assert (dtype (self w1) = dtype (self w0)) as Hdt by apply Hk.
    destruct (IH w1 Hnames1 Hrun) as (files & Hd1 & Hall).
    rewrite Hdt in Hall.
    eexists (_ :: files). split; [rewrite Hd1, Hd, <- app_assoc; reflexivity |].
    constructor; [| exact Hall]. cbn.
    rewrite (scalars_loop_eq 0 arrays [] names) in Hloop
      by (exact Hnames1 || (simpl; lia)).
    destruct (decide (length arrays + 0 <= length names)%nat) as [Hlen|Hlen];
      [| discriminate].
    injection Hloop as <-. cbn [self drop app]. rewrite Hdt.
    exists (self w0), points, arrays. rewrite Hcall.
    split_and!; try reflexivity; [lia |].
    assert (length arrays <= length names)%nat as Hle by lia.
    clear -Hle. revert names Hle.
    induction arrays as [|a arrays IH]; intros names Hle; [reflexivity |].
    destruct names as [|n names]; [simpl in Hle; lia |].
    cbn. f_equal. apply IH. simpl in Hle. lia.
Qed.

Lemma species_loop_app name_base istr fmt l1 l2 (w : World) :
  species_loop name_base istr fmt (l1 ++ l2) w =
  bind (species_loop name_base istr fmt l1)
       (fun _ => species_loop name_base istr fmt l2) w.
Proof.
  revert w. induction l1 as [|specie l1 IH]; intros w; [reflexivity |].
  cbn [app species_loop]. unfold bind.
  destruct (species_body name_base istr fmt specie w) as [w1 u|w1 e];
    [exact (IH w1) | reflexivity].
Qed.

(** X14. When [_convert_species] returns, for a species anywhere in the
    list, more arrays than [scalars] has names, the call raises [IndexError]
    at that species, after the conversion, and makes no write for it: the
    writes are those of the species before it. The names are names that
    pyvtk accepts for an array, that is, none is blank. *)
Theorem species_too_many_arrays species it fmt names sel z (w w1 : World)
    pre specie rest s1 points arrays :
  Forall (fun name => strip name <> "") names ->
  resolve_species species w = pre ++ specie :: rest ->
  write_species_vtk (Some pre) it fmt names sel z w = Return w1 tt ->
  _convert_species (self w1) specie = (s1, Ok (points, arrays)) ->
  (length names < length arrays)%nat ->
  write_species_vtk species it fmt names sel z w =
  Raise {| self := s1; disk := disk w1;
           calls := calls w1 ++ [Call_convert_species specie] |} IndexError.
Proof.
  intros _ Hl Hpre Hcall Hlen. rewrite write_species_vtk_unfold in Hpre |- *.
  rewrite Hl. cbn [resolve_species] in Hpre.
  set (w0 := registered_species it z sel names w) in *.
  rewrite species_loop_app. unfold bind at 1. rewrite Hpre.
  cbn [species_loop]. unfold bind at 1. rewrite species_body_eq. cbv zeta.
  rewrite Hcall. cbn [fst snd]. unfold bind at 1.
  pose proof (species_keeps Hkeeps _ _ _ _ Hcall) as Hk.
  pose proof (species_loop_keeps Hkeeps
                (path (self w) +:+ "vtk_specie_{:}_{:}") (zero_pad (str it)) fmt
                pre w0) as (Hk0 & _).
  rewrite Hpre in Hk0. cbn [world_of] in Hk0.
  rewrite (scalars_loop_eq 0 arrays [] names).
  - rewrite decide_False by lia. reflexivity.
  - cbn. destruct Hk as (_ & _ & _ & _ & _ & _ & _ & _ & ->).
    destruct Hk0 as (_ & _ & _ & _ & _ & _ & _ & _ & ->). reflexivity.
  - lia.
Qed.

End WithKeeps.

(** X15. [_get_mesh_3d] needs [self.dimensions]: without it the call raises
    [AttributeError] and changes nothing. The mesh it stores does not
    survive the next [write_fields_vtk], which does what it would have done
    had the mesh not been built. *)
Theorem get_mesh_3d_then_write_fields (origin resolutions : pyobject)
    flds it fmt z nth cm (w : World) :
  match dimensions (self w) with
  | None =>
      _get_mesh_3d origin resolutions w = Raise w (AttributeError "dimensions")
  | Some d =>
      exists w1,
        _get_mesh_3d origin resolutions w = Return w1 tt /\
        grid (self w1) = Some (Some (StructuredPoints d origin resolutions)) /\
        write_fields_vtk flds it fmt z nth cm w1 =
        write_fields_vtk flds it fmt z nth cm w
  end.
Proof.
  unfold _get_mesh_3d, self_dimensions, getattr, bind, modify_self.
  destruct (dimensions (self w)) as [d|] eqn:Ed; [| reflexivity].
  eexists. split_and!; [reflexivity | reflexivity |].
  apply write_fields_vtk_overwrites. unfold differ_in_fields_params. cbn. tauto.
Qed.

End MoreSpecies.


(** ** The files on the disk *)

(** The name on the disk of a name made of a directory, a stem that begins
    with a letter, a middle part and the iteration string. *)
Lemma vtk_filename_stem (dir : string) c (stem mid : string) (i : Z) :
  is_blank c = false ->
  vtk_filename (dir +:+ String c stem +:+ mid +:+ zero_pad (str i)) =
  lstrip dir +:+ String c stem +:+ mid +:+ zero_pad (str i) +:+ ".vtk".
Proof.
  intros Hc. rewrite append_cons, <- (append_assoc stem mid).
  rewrite vtk_filename_name by exact Hc.
  now rewrite append_cons, !append_assoc.
Qed.

Lemma vtk_filename_common (dir : string) (i : Z) :
  vtk_filename (dir +:+ "vtk_fields_" +:+ zero_pad (str i)) =
  lstrip dir +:+ "vtk_fields_" +:+ zero_pad (str i) +:+ ".vtk".
Proof. exact (vtk_filename_stem dir "v" "tk_fields_" "" i eq_refl). Qed.

Lemma vtk_filename_field (dir fld : string) (i : Z) :
  vtk_filename (dir +:+ "vtk_fields_" +:+ fld +:+ "_" +:+ zero_pad (str i)) =
  lstrip dir +:+ "vtk_fields_" +:+ fld +:+ "_" +:+ zero_pad (str i) +:+ ".vtk".
Proof.
  rewrite <- (append_assoc fld "_" (zero_pad (str i))).
  rewrite <- (append_assoc fld "_" (zero_pad (str i) +:+ ".vtk")).
  exact (vtk_filename_stem dir "v" "tk_fields_" (fld +:+ "_") i eq_refl).
Qed.

Lemma vtk_filename_species (dir specie : string) (i : Z) :
  vtk_filename (dir +:+ "vtk_specie_" +:+ specie +:+ "_" +:+ zero_pad (str i)) =
  species_file_on_disk dir (zero_pad (str i)) specie.
Proof.
  unfold species_file_on_disk.
  rewrite <- (append_assoc specie "_" (zero_pad (str i))).
  rewrite <- (append_assoc specie "_" (zero_pad (str i) +:+ ".vtk")).
  exact (vtk_filename_stem dir "v" "tk_specie_" (specie +:+ "_") i eq_refl).
Qed.

Lemma field_files_on_disk_eq (t : TimeSeries) (dir fld : string) (i : Z) :
  map vtk_filename (field_files t dir (zero_pad (str i)) fld) =
  field_files_on_disk t dir (zero_pad (str i)) fld.
Proof.
  unfold field_files, field_files_on_disk.
  destruct (declared_type t fld) as [ty|]; [| reflexivity].
  destruct (String.eqb ty "vector");
    [cbn [map]; now rewrite !vtk_filename_field |].
  destruct (String.eqb ty "scalar"); [| reflexivity].
  cbn [map]. now rewrite vtk_filename_field.
Qed.

Lemma species_file_on_disk_inj (dir istr s1 s2 : string) :
  species_file_on_disk dir istr s1 = species_file_on_disk dir istr s2 -> s1 = s2.
Proof.
  unfold species_file_on_disk. intros H.
  apply (inj (String.append (lstrip dir))) in H.
  apply (inj (String.append "vtk_specie_")) in H.
  now apply append_inj_r in H.
Qed.

Section OnDisk.
Context `{F : Foreign} {G : opmd2VTKGeneric} {V : PyVTK}.
Hypothesis Hkeeps : keeps_params.

(** The writes of a returning call to [write_fields_vtk] come after those
    that were there. *)
Lemma write_fields_vtk_extends flds it fmt z nth cm (w w' : World) :
  write_fields_vtk flds it fmt z nth cm w = Return w' tt ->
  exists writes, disk w' = disk w ++ writes.
Proof.
  intros Hrun. destruct cm.
  - apply common_mesh_Return in Hrun as (w1 & c & g & _ & _ & _ & _ & Hd). eauto.
  - destruct (per_component_writes_shape flds it fmt z nth w)
      as (files & _ & Hd & _).
    cbv zeta in Hd. rewrite Hrun in Hd. eauto.
Qed.

(** C2, as amended. A call to [write_fields_vtk] that returns has made
    these writes, in this order: with [CommonMesh] true, one, to the file
    [vtk_fields_<istr>.vtk]; with [CommonMesh] false, for each field of the
    list three, to the files [vtk_fields_<field>x_<istr>.vtk], [..y..],
    [..z..], if it is a vector, one, to the file
    [vtk_fields_<field>_<istr>.vtk], if it is a scalar, and none otherwise.
    The converter hands pyvtk the names without [.vtk], prefixed by the
    output directory; pyvtk drops the blanks in front and appends [.vtk].
    [<istr>] is the iteration number padded with zeros to seven characters.
    Each of these files is on the disk when the call ends, as one of the
    writes left it, a later write to a name replacing the file of an earlier
    one, and every other file is as it was before the call. *)
Theorem write_fields_vtk_files_on_disk flds it fmt z nth cm (w w' : World) :
  write_fields_vtk flds it fmt z nth cm w = Return w' tt ->
  let t := ts (self w) in
  let dir := path (self w) in
  let istr := zero_pad (str it) in
  let names :=
    if cm then [common_file_on_disk dir istr]
    else flat_map (field_files_on_disk t dir istr) (resolve_fields flds w) in
  exists writes,
    disk w' = disk w ++ writes /\
    map file_name writes =
      (if cm then [dir +:+ "vtk_fields_" +:+ istr]
       else flat_map (field_files t dir istr) (resolve_fields flds w)) /\
    map (fun f => vtk_filename (file_name f)) writes = names /\
    (forall n, n ∈ names ->
       exists f, file_system (disk w') !! n = Some f /\ f ∈ writes /\
                 vtk_filename (file_name f) = n) /\
    (forall n, n ∉ names ->
       file_system (disk w') !! n = file_system (disk w) !! n).
Proof.
  intros Hrun. cbv zeta.
  destruct (write_fields_vtk_extends _ _ _ _ _ _ _ _ Hrun) as (writes & Hd).
  pose proof (write_fields_vtk_names Hkeeps _ _ _ _ _ _ _ _ Hrun) as Hn.
  rewrite Hd, map_app in Hn. apply app_inv_head in Hn.
  assert (map (fun f => vtk_filename (file_name f)) writes =
          (if cm then [common_file_on_disk (path (self w)) (zero_pad (str it))]
           else flat_map (field_files_on_disk (ts (self w)) (path (self w))
                            (zero_pad (str it))) (resolve_fields flds w)))
    as Hv.
  { rewrite <- (map_map file_name vtk_filename), Hn. destruct cm.
    - cbn [map]. now rewrite vtk_filename_common.
    - generalize (resolve_fields flds w) as l.
      induction l as [|fld l IH]; [reflexivity |].
      cbn [flat_map]. now rewrite map_app, IH, field_files_on_disk_eq. }
  exists writes. rewrite Hd, file_system_app.
  split_and!; [reflexivity | exact Hn | exact Hv | |].
  - intros n Hin. apply writes_lookup_written. now rewrite Hv.
  - intros n Hin. apply writes_lookup_other. now rewrite Hv.
Qed.

(** C7, as amended. A call to [write_species_vtk] that returns has made one
    write for each species of the list, in the order of the list, to the
    file [vtk_specie_<species>_<istr>.vtk] in the output directory: the
    converter hands pyvtk the name without [.vtk], and pyvtk appends it.
    When the call ends the file of every species of the list is on the disk
    and holds the point cloud of the positions that [_convert_species]
    returned for the species, with one scalar array for each entry of the
    argument [scalars], the i-th array being the i-th array of
    [_convert_species], cast to the converter's dtype and created under the
    i-th name; every other file is as it was before the call. *)
Theorem write_species_vtk_files_on_disk species it fmt names sel z (w w' : World) :
  one_array_per_scalar ->
  write_species_vtk species it fmt names sel z w = Return w' tt ->
  let istr := zero_pad (str it) in
  exists dir writes,
    (brace_free (path (self w)) = true -> dir = path (self w)) /\
    disk w' = disk w ++ writes /\
    map (fun f => vtk_filename (file_name f)) writes =
      map (species_file_on_disk dir istr) (resolve_species species w) /\
    (forall specie, specie ∈ resolve_species species w ->
       exists f,
         file_system (disk w') !! species_file_on_disk dir istr specie = Some f /\
         f ∈ writes /\
         file_name f = dir +:+ "vtk_specie_" +:+ specie +:+ "_" +:+ istr /\
         file_format f = fmt /\
         exists s points arrays,
           snd (_convert_species s specie) = Ok (points, arrays) /\
           structure f = Some (PolyData points) /\
           point_data f =
             zip_with (species_scalar (dtype (self w))) arrays names /\
           map attr_name (point_data f) = names) /\
    (forall n,
       n ∉ map (species_file_on_disk dir istr) (resolve_species species w) ->
       file_system (disk w') !! n = file_system (disk w) !! n).
Proof.
  intros Hone Hrun. cbv zeta.
  destruct (write_species_vtk_writes Hkeeps _ _ _ _ _ _ _ _ Hone Hrun)
    as (dir & writes & Hdir & Hd & Hall).
  assert (map (fun f => vtk_filename (file_name f)) writes =
          map (species_file_on_disk dir (zero_pad (str it)))
            (resolve_species species w)) as Hv.
  { clear Hd. induction Hall as [|specie f l fs (Hn & _) _ IH]; [reflexivity |].
    cbn [map]. now rewrite IH, Hn, vtk_filename_species. }
  exists dir, writes. rewrite Hd, file_system_app.
  split_and!; [exact Hdir | reflexivity | exact Hv | |].
  - intros specie Hin.
    destruct (writes_lookup_written (file_system (disk w)) writes
                (species_file_on_disk dir (zero_pad (str it)) specie))
      as (f & Hf & Hfin & Hname).
    { rewrite Hv. apply list_elem_of_fmap. eauto. }
    exists f. split; [exact Hf |]. split; [exact Hfin |].
    apply list_elem_of_lookup in Hfin as (k & Hk).
    destruct (Forall2_lookup_r _ _ _ _ _ Hall Hk)
      as (specie' & _ & Hn & Hfmt & Hdata).
    rewrite Hn, vtk_filename_species in Hname.
    apply species_file_on_disk_inj in Hname. subst specie'. auto.
  - intros n Hin. apply writes_lookup_other. now rewrite Hv.
Qed.

End OnDisk.

(** ** The properties on the small converter *)

#[local] Existing Instances Demo.foreign Demo.generic Demo.writer.

Lemma demo_with_mesh_keeps (s : Opmd2VTK) : same_params s (Demo.with_mesh s).
Proof.
  unfold Demo.with_mesh, same_params.
  destruct (grid s) as [[g|]|]; cbn; tauto.
Qed.

Lemma demo_keeps_params : keeps_params.
Proof.
  unfold keeps_params. cbn.
  split_and!; intros; try apply demo_with_mesh_keeps. apply same_params_refl.
Qed.

Lemma demo_caches_mesh : caches_mesh.
Proof.
  unfold caches_mesh. cbn. unfold Demo.with_mesh. intros s fld g H.
  rewrite H. auto.
Qed.

Lemma demo_one_array_per_scalar : one_array_per_scalar.
Proof.
  unfold one_array_per_scalar. cbn. intros s specie points arrays names -> [= _ <-].
  cbn. apply length_fmap.
Qed.

(** Two runs on the small converter. *)
Example demo_run_common :
  map file_name
    (disk (world_of (write_fields_vtk None 3 "binary" None 24 true Demo.world0))) =
  ["out/vtk_fields_0000003"].
Proof. vm_compute. reflexivity. Qed.

Example demo_run_scalar_first :
  write_fields_vtk (Some ["rho"; "E"]) 3 "binary" None 24 false Demo.world0 =
  Raise (registered_fields 3 None false 24 Demo.world0) (UnboundLocalError "comp").
Proof. vm_compute. reflexivity. Qed.

Lemma scalar_branch_reuses_comp_witness :
  exists cs,
    calls (world_of
             (write_fields_vtk (Some ["E"; "rho"]) 3 "binary" None 24 false
                Demo.world0)) = cs /\
    Call_convert_field_vec_comp "rho" "z" ∈ cs /\
    Call_convert_field_scl "rho" ∉ cs.
Proof.
  destruct (scalar_branch_reuses_comp demo_keeps_params (Some ["E"; "rho"]) 3
              "binary" None 24 Demo.world0) as (cs & Hc & Hscl & _ & _ & Hin).
  exists cs. split_and!.
  - exact Hc.
  - apply (Hin (world_of
                  (write_fields_vtk (Some ["E"; "rho"]) 3 "binary" None 24 false
                     Demo.world0))).
    + vm_compute. reflexivity.
    + cbn. repeat constructor.
    + vm_compute. reflexivity.
  - apply Hscl.
Defined.

Lemma unknown_type_skipped_witness :
  write_fields_vtk (Some ["E"; "T"; "rho"]) 3 "binary" None 24 false Demo.world0 =
  write_fields_vtk (Some (["E"] ++ ["rho"])) 3 "binary" None 24 false Demo.world0.
Proof.
  apply (unknown_type_skipped demo_keeps_params (Some ["E"; "T"; "rho"]) 3 "binary"
           None 24 false Demo.world0 ["E"] "T" ["rho"] "tensor").
  - reflexivity.
  - vm_compute. reflexivity.
  - discriminate.
  - discriminate.
Defined.

Lemma missing_field_raises_KeyError_witness :
  exists w1,
    write_fields_vtk (Some ["E"; "nope"; "rho"]) 3 "binary" None 24 false
      Demo.world0 = Raise w1 (KeyError "nope") /\
    map file_name (disk w1) =
      ["out/vtk_fields_Ex_0000003"; "out/vtk_fields_Ey_0000003";
       "out/vtk_fields_Ez_0000003"].
Proof.
  destruct (missing_field_raises_KeyError demo_keeps_params
              (Some ["E"; "nope"; "rho"]) 3 "binary" None 24 false Demo.world0
              ["E"] "nope" ["rho"])
    as (_ & _ & _ & H).
  - reflexivity.
  - vm_compute. reflexivity.
  - set (w1 := world_of
                 (per_component_loop (zero_pad (str 3)) "binary" ["E"] None
                    (registered_fields 3 None false 24 Demo.world0))).
    destruct (H eq_refl w1 (Some "z")) as (Hrun & Hnames).
    + vm_compute. reflexivity.
    + exists w1. split; [exact Hrun |]. rewrite Hnames. vm_compute. reflexivity.
Defined.

Lemma scalar_before_vector_raises_witness :
  exists w' e,
    write_fields_vtk (Some ["T"; "rho"; "E"]) 3 "binary" None 24 false Demo.world0 =
      Raise w' e /\
    e = UnboundLocalError "comp" /\ is_NameError e = true /\
    disk w' = disk Demo.world0.
Proof.
  apply (scalar_before_vector_raises (Some ["T"; "rho"; "E"]) 3 "binary" None 24
           Demo.world0 ["T"] "rho" ["E"]).
  - reflexivity.
  - intros g Hg. apply list_elem_of_singleton in Hg as ->.
    exists "tensor". split; [vm_compute; reflexivity | discriminate].
  - vm_compute. reflexivity.
Defined.

Lemma iteration_suffix_roundtrip_witness :
  exists istr,
    make_istr (registered_fields 3 None true 24 Demo.world0) =
      Return (registered_fields 3 None true 24 Demo.world0) istr /\
    String.length istr = 7%nat /\ int istr = Some 3%Z.
Proof.
  apply (iteration_suffix_roundtrip 3 (registered_fields 3 None true 24 Demo.world0)).
  - reflexivity.
  - lia.
Defined.

Lemma params_persist_witness :
  let w1 := world_of
              (write_fields_vtk None 3 "binary" None 24 false Demo.world0) in
  let w2 := world_of
              (write_species_vtk None 12 "ascii" default_scalars None None w1) in
  (iteration (self w1) = Some 3%Z /\ CommonMesh (self w1) = Some false /\
   Nth (self w1) = Some 24%Z) /\
  (iteration (self w2) = Some 12%Z /\ scalars (self w2) = Some default_scalars /\
   CommonMesh (self w2) = Some false /\ Nth (self w2) = Some 24%Z).
Proof.
  intros w1 w2. destruct (params_persist demo_keeps_params) as (Hf & Hs).
  destruct (Hf None 3%Z "binary" None 24%Z false Demo.world0)
    as ((Hi & _ & Hc & Hn) & _ & _).
  destruct (Hs None 12%Z "ascii" default_scalars None None w1)
    as ((Hi2 & _ & _ & Hsc) & (Hc2 & Hn2) & _).
  fold w1 in Hi, Hc, Hn. fold w2 in Hi2, Hsc, Hc2, Hn2.
  split; [auto |]. split_and!; [exact Hi2 | exact Hsc | congruence | congruence].
Defined.

Lemma mesh_reset_each_call_witness :
  let o := write_fields_vtk None 3 "binary" None 24 false Demo.world0 in
  write_fields_vtk None 3 "binary" None 24 false
    (with_grid (Some (Some (StructuredPoints tt tt tt))) Demo.world0) = o /\
  exists new, disk (world_of o) = new /\
    forall m1 m2, m1 ∈ meshes new -> m2 ∈ meshes new -> m1 = m2.
Proof.
  intros o.
  destruct (mesh_reset_each_call None 3 "binary" None 24 false Demo.world0)
    as (_ & Hg & Hm).
  split; [apply Hg |].
  destruct (Hm demo_caches_mesh) as (new & Hd & Hu). exists new. split; assumption.
Defined.

(** C8, as stated, fails on a converter whose [Nth] has never been set: the
    call raises, but not a [NameError]. *)
Lemma get_mesh_circ_fresh_not_NameError :
  ~ (exists w' e,
       _get_mesh_circ tt tt Demo.world0 = Raise w' e /\ is_NameError e = true).
Proof.
  intros (w' & e & H & He). vm_compute in H. injection H as _ <-. discriminate.
Qed.

(** ** The further properties on the small converters *)

Lemma demo2_keeps_params : keeps_params (G := Demo2.generic).
Proof.
  unfold keeps_params. cbn.
  split_and!; intros;
    try (destruct (String.eqb _ "B"); cbn);
    try apply demo_with_mesh_keeps; apply same_params_refl.
Qed.

Lemma iteration_suffix_unbounded_witness :
  exists istr,
    make_istr (registered_fields 12345678 None true 24 Demo.world0) =
      Return (registered_fields 12345678 None true 24 Demo.world0) istr /\
    int istr = Some 12345678%Z /\ istr = "12345678".
Proof.
  destruct (iteration_suffix_unbounded 12345678
              (registered_fields 12345678 None true 24 Demo.world0))
    as (istr & Hrun & Hint & _ & Hbig); [reflexivity | lia |].
  exists istr. split_and!; [exact Hrun | exact Hint |].
  destruct Hbig as (-> & _); [lia | reflexivity].
Defined.

Lemma iteration_suffix_negative_witness :
  exists istr,
    make_istr (registered_fields (-5) None true 24 Demo.world0) =
      Return (registered_fields (-5) None true 24 Demo.world0) istr /\
    String.length istr = 7%nat /\ int istr = None.
Proof.
  apply (iteration_suffix_negative (-5)
           (registered_fields (-5) None true 24 Demo.world0)).
  - reflexivity.
  - lia.
Defined.



Lemma no_field_of_known_type_witness :
  write_fields_vtk (Some ["T"]) 3 "binary" None 24 false Demo.world0 =
    Return (registered_fields 3 None false 24 Demo.world0) tt /\
  write_fields_vtk (Some ["T"]) 3 "binary" None 24 true Demo.world0 =
    Raise (registered_fields 3 None true 24 Demo.world0) (LibraryError "TypeError").
Proof.
  assert (Forall (untyped (ts (self Demo.world0)))
            (resolve_fields (Some ["T"]) Demo.world0)) as Hall.
  { repeat constructor. exists "tensor".
    split_and!; [vm_compute; reflexivity | discriminate | discriminate]. }
  split.
  - exact (no_field_of_known_type (Some ["T"]) 3 "binary" None 24 false Demo.world0
             Hall).
  - exact (no_field_of_known_type (Some ["T"]) 3 "binary" None 24 true Demo.world0
             Hall).
Defined.

Lemma write_fields_vtk_exceptions_witness :
  fields_exn (G := Demo2.generic) ["E"; "B"] (LibraryError "OSError").
Proof.
  set (o := write_fields_vtk (G := Demo2.generic) (Some ["E"; "B"]) 3 "binary" None
              24 false Demo2.world0).
  assert (o = Raise (world_of o) (LibraryError "OSError")) as Hrun
    by (vm_compute; reflexivity).
  unfold o in Hrun.
  exact (write_fields_vtk_exceptions (G := Demo2.generic) _ _ _ _ _ _ _ _ _ Hrun).
Defined.

Lemma per_component_partial_output_witness :
  exists files,
    disk (world_of
            (write_fields_vtk (G := Demo2.generic) (Some ["E"; "B"]) 3 "binary" None
               24 false Demo2.world0)) = files /\
    map file_name files `prefix_of`
      ["out/vtk_fields_Ex_0000003"; "out/vtk_fields_Ey_0000003";
       "out/vtk_fields_Ez_0000003"; "out/vtk_fields_Bx_0000003";
       "out/vtk_fields_By_0000003"; "out/vtk_fields_Bz_0000003"].
Proof.
  destruct (per_component_partial_output demo2_keeps_params (Some ["E"; "B"]) 3
              "binary" None 24 Demo2.world0) as (files & Hd & Hp).
  exists files. split; [exact Hd | exact Hp].
Defined.

Lemma component_file_collision_witness :
  exists w' f1 f2 f3 f4,
    write_fields_vtk (G := Demo2.generic) (Some ["E"; "Ex"]) 3 "binary" None 24 false
      Demo2.world0 = Return w' tt /\
    disk w' = [f1; f2; f3; f4] /\
    file_name f4 ∈ [file_name f1; file_name f2; file_name f3].
Proof.
  set (w' := world_of
               (write_fields_vtk (G := Demo2.generic) (Some ["E"; "Ex"]) 3 "binary"
                  None 24 false Demo2.world0)).
  assert (write_fields_vtk (G := Demo2.generic) (Some ["E"; "Ex"]) 3 "binary" None 24
            false Demo2.world0 = Return w' tt) as Hrun by (vm_compute; reflexivity).
  destruct (component_file_collision (G := Demo2.generic) demo2_keeps_params "E" "x"
              3 "binary" None 24 Demo2.world0 w')
    as (f1 & f2 & f3 & f4 & Hd & Hin).
  - now left.
  - vm_compute. reflexivity.
  - vm_compute. reflexivity.
  - exact Hrun.
  - exists w', f1, f2, f3, f4. auto.
Defined.

Lemma species_path_with_braces_witness :
  exists w' e,
    write_species_vtk (G := Demo2.generic) None 12 "ascii" default_scalars None None
      Demo2.world_braces = Raise w' e.
Proof.
  destruct (write_species_vtk (G := Demo2.generic) None 12 "ascii" default_scalars
              None None Demo2.world_braces) as [w' []|w' e] eqn:E; [| eauto].
  exfalso.
  apply (species_path_with_braces (G := Demo2.generic) None 12 "ascii"
           default_scalars None None Demo2.world_braces w').
  - discriminate.
  - reflexivity.
  - exact E.
Defined.

Lemma species_arrays_by_position_witness :
  exists w' f,
    write_species_vtk (G := Demo2.generic) None 12 "ascii" ["ux"; "uy"; "uz"] None
      None Demo2.world0 = Return w' tt /\
    disk w' = [f] /\
    map attr_name (point_data f) = ["ux"; "uy"].
Proof.
  set (w' := world_of
               (write_species_vtk (G := Demo2.generic) None 12 "ascii"
                  ["ux"; "uy"; "uz"] None None Demo2.world0)).
  assert (write_species_vtk (G := Demo2.generic) None 12 "ascii" ["ux"; "uy"; "uz"]
            None None Demo2.world0 = Return w' tt) as Hrun
    by (vm_compute; reflexivity).
  destruct (species_arrays_by_position (G := Demo2.generic) demo2_keeps_params
              _ _ _ _ _ _ _ _ Hrun) as (files & Hd & Hall).
  cbn in Hall. inversion Hall as [|specie f ? files' Hf Hrest]; subst.
  inversion Hrest; subst.
  destruct Hf as (s & points & arrays & Hcall & _ & _ & _ & Hnames).
  cbn in Hcall. injection Hcall as _ <-.
  exists w', f. split_and!; [exact Hrun | exact Hd | exact Hnames].
Defined.

Lemma demo3_keeps_params : keeps_params (G := Demo3.generic).
Proof.
  unfold keeps_params. cbn.
  split_and!; intros; try apply demo_with_mesh_keeps; apply same_params_refl.
Qed.

Lemma common_mesh_file_contents_witness :
  exists w' f,
    write_fields_vtk None 3 "binary" None 24 true Demo.world0 = Return w' tt /\
    disk w' = [f] /\
    point_data f = [Vectors [1; 2; 3]%Z "E"; Scalars [4]%Z "rho"] /\
    calls w' = [Call_convert_field_vec_full "E"; Call_convert_field_scl "rho"].
Proof.
  set (w' := world_of (write_fields_vtk None 3 "binary" None 24 true Demo.world0)).
  assert (write_fields_vtk None 3 "binary" None 24 true Demo.world0 = Return w' tt)
    as Hrun by (vm_compute; reflexivity).
  destruct (common_mesh_file_contents demo_keeps_params _ _ _ _ _ _ _ Hrun)
    as (f & Hd & _ & _ & Hall & _ & Hc).
  exists w', f. split_and!; [exact Hrun | exact Hd | | exact Hc].
  cbn in Hall.
  inversion Hall as [|fld1 a1 l1 l1' H1 Hrest1 E1 E1']; subst.
  inversion Hrest1 as [|fld2 a2 l2 l2' H2 Hrest2 E2 E2']; subst.
  inversion Hrest2; subst.
  destruct H1 as (s1 & d1 & n1 & Hc1 & ->).
  destruct H2 as (s2 & d2 & n2 & Hc2 & ->).
  cbn in Hc1, Hc2. injection Hc1 as <- <-. injection Hc2 as <- <-.
  reflexivity.
Defined.

Lemma species_too_many_arrays_witness :
  exists w',
    write_species_vtk (G := Demo3.generic) None 12 "ascii" ["ux"] None None
      Demo.world0 = Raise w' IndexError /\
    map file_name (disk w') = ["out/vtk_specie_electrons_0000012"] /\
    calls w' = [Call_convert_species "electrons"; Call_convert_species "ions"].
Proof.
  set (w1 := world_of
               (write_species_vtk (G := Demo3.generic) (Some ["electrons"]) 12
                  "ascii" ["ux"] None None Demo.world0)).
  assert (write_species_vtk (G := Demo3.generic) (Some ["electrons"]) 12 "ascii"
            ["ux"] None None Demo.world0 = Return w1 tt) as Hpre
    by (vm_compute; reflexivity).
  eexists. split.
  - apply (species_too_many_arrays (G := Demo3.generic) demo3_keeps_params None 12
             "ascii" ["ux"] None None Demo.world0 w1 ["electrons"] "ions" []
             (self w1) tt [[7]%Z; [6]%Z]).
    + repeat constructor. intros H. vm_compute in H. discriminate.
    + reflexivity.
    + exact Hpre.
    + reflexivity.
    + cbn. lia.
  - split; vm_compute; reflexivity.
Defined.

(** ** The files on the disk, on the small converters *)

Lemma write_fields_vtk_files_on_disk_witness :
  exists w' writes,
    write_fields_vtk (Some ["E"; "rho"]) 3 "binary" None 24 false Demo.world0 =
      Return w' tt /\
    disk w' = writes /\
    map file_name writes =
      ["out/vtk_fields_Ex_0000003"; "out/vtk_fields_Ey_0000003";
       "out/vtk_fields_Ez_0000003"; "out/vtk_fields_rho_0000003"] /\
    map (fun f => vtk_filename (file_name f)) writes =
      ["out/vtk_fields_Ex_0000003.vtk"; "out/vtk_fields_Ey_0000003.vtk";
       "out/vtk_fields_Ez_0000003.vtk"; "out/vtk_fields_rho_0000003.vtk"] /\
    (exists f,
       file_system (disk w') !! "out/vtk_fields_rho_0000003.vtk" = Some f /\
       f ∈ writes) /\
    file_system (disk w') !! "out/vtk_fields_rho_0000003" = None.
Proof.
  set (w' := world_of
               (write_fields_vtk (Some ["E"; "rho"]) 3 "binary" None 24 false
                  Demo.world0)).
  assert (write_fields_vtk (Some ["E"; "rho"]) 3 "binary" None 24 false Demo.world0
          = Return w' tt) as Hrun by (vm_compute; reflexivity).
  destruct (write_fields_vtk_files_on_disk demo_keeps_params _ _ _ _ _ _ _ _ Hrun)
    as (writes & Hd & Hn & Hv & Hin & Hout).
  assert (flat_map
            (field_files_on_disk (ts (self Demo.world0)) (path (self Demo.world0))
               (zero_pad (str 3)))
            (resolve_fields (Some ["E"; "rho"]) Demo.world0) =
          ["out/vtk_fields_Ex_0000003.vtk"; "out/vtk_fields_Ey_0000003.vtk";
           "out/vtk_fields_Ez_0000003.vtk"; "out/vtk_fields_rho_0000003.vtk"])
    as Enames by (vm_compute; reflexivity).
  rewrite Enames in Hv, Hin, Hout.
  exists w', writes. split_and!.
  - exact Hrun.
  - exact Hd.
  - rewrite Hn. vm_compute. reflexivity.
  - exact Hv.
  - destruct (Hin "out/vtk_fields_rho_0000003.vtk") as (f & Hf & Hfin & _).
    + do 3 right. left.
    + eauto.
  - rewrite Hout; [reflexivity |].
    intros H. repeat (apply elem_of_cons in H as [H|H]; [discriminate |]).
    inversion H.
Defined.

(** The file of a whole field list is not named [vtk_fields_<istr>], and a
    vector field followed by a scalar field named like one of its components
    leaves three files, not four. *)
Lemma write_fields_vtk_files_without_suffix :
  exists w1 w2,
    write_fields_vtk None 3 "binary" None 24 true Demo.world0 = Return w1 tt /\
    file_system (disk w1) !! "out/vtk_fields_0000003" = None /\
    dom (file_system (disk w1)) = {[ "out/vtk_fields_0000003.vtk" ]} /\
    write_fields_vtk (G := Demo2.generic) (Some ["E"; "Ex"]) 3 "binary" None 24
      false Demo2.world0 = Return w2 tt /\
    length (disk w2) = 4%nat /\
    dom (file_system (disk w2)) =
      {[ "out/vtk_fields_Ex_0000003.vtk"; "out/vtk_fields_Ey_0000003.vtk";
         "out/vtk_fields_Ez_0000003.vtk" ]}.
Proof.
  eexists _, _. split_and!; vm_compute; reflexivity.
Qed.

Lemma write_species_vtk_files_on_disk_witness :
  exists w' dir writes,
    write_species_vtk None 12 "ascii" default_scalars None None Demo.world0 =
      Return w' tt /\
    dir = "out/" /\
    disk w' = writes /\
    map (fun f => vtk_filename (file_name f)) writes =
      ["out/vtk_specie_electrons_0000012.vtk"; "out/vtk_specie_ions_0000012.vtk"] /\
    exists f,
      file_system (disk w') !! "out/vtk_specie_ions_0000012.vtk" = Some f /\
      file_name f = "out/vtk_specie_ions_0000012" /\
      map attr_name (point_data f) = ["ux"; "uy"; "uz"; "w"].
Proof.
  set (w' := world_of
               (write_species_vtk None 12 "ascii" default_scalars None None
                  Demo.world0)).
  assert (write_species_vtk None 12 "ascii" default_scalars None None Demo.world0
          = Return w' tt) as Hrun by (vm_compute; reflexivity).
  destruct (write_species_vtk_files_on_disk demo_keeps_params _ _ _ _ _ _ _ _
              demo_one_array_per_scalar Hrun)
    as (dir & writes & Hdir & Hd & Hv & Hin & _).
  assert (dir = "out/") as -> by (apply Hdir; vm_compute; reflexivity).
  exists w', "out/", writes. split_and!.
  - exact Hrun.
  - reflexivity.
  - exact Hd.
  - rewrite Hv. vm_compute. reflexivity.
  - destruct (Hin "ions") as (f & Hf & _ & Hn & _ & s & points & arrays & _ & _ & _ & Ha).
    + right. left.
    + exists f. split_and!; [exact Hf | exact Hn | exact Ha].
Defined.

(** The file of a species is not named [vtk_specie_<species>_<istr>]. *)
Lemma write_species_vtk_files_without_suffix :
  exists w',
    write_species_vtk None 12 "ascii" default_scalars None None Demo.world0 =
      Return w' tt /\
    file_system (disk w') !! "out/vtk_specie_electrons_0000012" = None /\
    file_system (disk w') !! "out/vtk_specie_ions_0000012" = None /\
    dom (file_system (disk w')) =
      {[ "out/vtk_specie_electrons_0000012.vtk";
         "out/vtk_specie_ions_0000012.vtk" ]}.
Proof.
  eexists. split_and!; vm_compute; reflexivity.
Qed.
